(** * chatter-bot: stores and the hybrid provider dispatch

    A shallow embedding of [src/lib/state.ts] (the zustand stores) and of
    the [sendMessage] dispatcher of the [ChatAssistant] component, in the
    version that has the [useConfig] store and the cloud/local branch.

    Conventions.
    - A JS string is a [string]; its characters stand for code units below
      256.  Every literal of the source is plain ASCII.
    - [undefined] is [None] of an [option].
    - A zustand store is a record; [set (partial)] rebuilds the record with
      the listed fields replaced, [set (fn)] does the same from [fn state].
    - The dispatcher runs in a small state-and-exception monad over the
      component's world; the network, the SDK and the clock are an
      environment record the dispatcher is a function of. *)

From Stdlib Require Import List String Ascii Bool Arith ZArith Lia.
From Stdlib Require Import PrimFloat.
Import ListNotations.
Local Open Scope string_scope.
Local Open Scope list_scope.

Set Implicit Arguments.

(** ** JavaScript strings *)
Module Js.

(** [s.startsWith(p)] *)
Definition startsWith (p s : string) : bool := String.prefix p s.

(** White space and line terminators as [String.prototype.trim] sees them,
    among the code units below 256: TAB, LF, VT, FF, CR, SP, NBSP. *)
Definition isWhiteSpace (c : ascii) : bool :=
  match nat_of_ascii c with
  | 9 | 10 | 11 | 12 | 13 | 32 | 160 => true
  | _ => false
  end.

Fixpoint trimStart (s : string) : string :=
  match s with
  | EmptyString => EmptyString
  | String c r => if isWhiteSpace c then trimStart r else s
  end.

(** [trimEnd] drops a character when it is white space and everything
    after it has been dropped. *)
Fixpoint trimEnd (s : string) : string :=
  match s with
  | EmptyString => EmptyString
  | String c r =>
      match trimEnd r with
      | EmptyString => if isWhiteSpace c then EmptyString else String c EmptyString
      | r' => String c r'
      end
  end.

(** [s.trim()] *)
Definition trim (s : string) : string := trimEnd (trimStart s).

(** Every character of [s] is white space (the empty string included). *)
Fixpoint allWhiteSpace (s : string) : bool :=
  match s with
  | EmptyString => true
  | String c r => isWhiteSpace c && allWhiteSpace r
  end.

(** Truthiness of a string: only [''] is falsy. *)
Definition truthy (s : string) : bool :=
  match s with EmptyString => false | _ => true end.

(** [s.replace(/\/$/, '')]: the pattern matches one slash at the very end
    of the input (no [m] flag), so at most the last character goes. *)
Fixpoint stripTrailingSlash (s : string) : string :=
  match s with
  | EmptyString => EmptyString
  | String c EmptyString => if Ascii.eqb c "/" then EmptyString else s
  | String c r => String c (stripTrailingSlash r)
  end.

(** [a || b] on a possibly undefined string. *)
Definition orElse (a : option string) (b : string) : string :=
  match a with
  | Some s => if truthy s then s else b
  | None => b
  end.

End Js.

(** ** Agents ([src/lib/state.ts], [useAgent]) *)
Module AgentStore.

(** Modelled from the spec: the [Agent] type is declared in
    [./presets/agents], which is not among the sources.  The spec gives
    an agent an identifier, a name, a system-prompt fragment and voice
    and visual settings. *)
Record Agent := mkAgent {
  id : string;
  name : string;
  systemPromptFragment : string;
  voice : string;
  visual : string;
}.

Inductive Field := Fid | Fname | FsystemPromptFragment | Fvoice | Fvisual.

Definition get (f : Field) (a : Agent) : string :=
  match f with
  | Fid => id a
  | Fname => name a
  | FsystemPromptFragment => systemPromptFragment a
  | Fvoice => voice a
  | Fvisual => visual a
  end.

(** [Partial<Agent>]: a field is [None] when the key is not there. *)
Record PartialAgent := mkPartial {
  p_id : option string;
  p_name : option string;
  p_systemPromptFragment : option string;
  p_voice : option string;
  p_visual : option string;
}.

Definition pget (f : Field) (p : PartialAgent) : option string :=
  match f with
  | Fid => p_id p
  | Fname => p_name p
  | FsystemPromptFragment => p_systemPromptFragment p
  | Fvoice => p_voice p
  | Fvisual => p_visual p
  end.

Definition over (new : option string) (old : string) : string :=
  match new with Some v => v | None => old end.

(** [{ ...agent, ...adjustments }] *)
Definition spread (agent : Agent) (adjustments : PartialAgent) : Agent :=
  {| id := over (p_id adjustments) (id agent);
     name := over (p_name adjustments) (name agent);
     systemPromptFragment :=
       over (p_systemPromptFragment adjustments) (systemPromptFragment agent);
     voice := over (p_voice adjustments) (voice agent);
     visual := over (p_visual adjustments) (visual agent) |}.

(** The store.  [current] is declared [Agent]; [setCurrent] can store
    [undefined] there, hence the option. *)
Record State := mkState {
  current : option Agent;
  availablePresets : list Agent;
  availablePersonal : list Agent;
}.

Definition hasId (i : string) (a : Agent) : bool := String.eqb (id a) i.

(** [A.find(p) || B.find(p)]: an agent object is truthy. *)
Definition getAgentById (i : string) (s : State) : option Agent :=
  match find (hasId i) (availablePersonal s) with
  | Some a => Some a
  | None => find (hasId i) (availablePresets s)
  end.

Definition addAgent (agent : Agent) (s : State) : State :=
  {| current := Some agent;
     availablePresets := availablePresets s;
     availablePersonal := availablePersonal s ++ [agent] |}.

(** The argument of [setCurrent]: an agent or an identifier. *)
Inductive AgentOrId := ByValue (a : Agent) | ById (i : string).

Definition setCurrent (agent : AgentOrId) (s : State) : State :=
  {| current := match agent with
                | ById i => getAgentById i s
                | ByValue a => Some a
                end;
     availablePresets := availablePresets s;
     availablePersonal := availablePersonal s |}.

(** [update] throws a [TypeError] when it reads [state.current.id] of an
    undefined [current]; the store is then left as it was. *)
Inductive Outcome := Done (s : State) | TypeError.

Definition replaceById (i : string) (updatedAgent : Agent) (l : list Agent) :=
  map (fun a => if hasId i a then updatedAgent else a) l.

Definition update (agentId : string) (adjustments : PartialAgent) (s : State)
  : Outcome :=
  match getAgentById agentId s with
  | None => Done s
  | Some agent =>
      let updatedAgent := spread agent adjustments in
      match current s with
      | None => TypeError
      | Some c =>
          Done {| availablePresets :=
                    replaceById agentId updatedAgent (availablePresets s);
                  availablePersonal :=
                    replaceById agentId updatedAgent (availablePersonal s);
                  current :=
                    Some (if hasId agentId c then updatedAgent else c) |}
      end
  end.

End AgentStore.

(** ** The other stores ([useUser], [useConfig], [useUI]) *)
Module Stores.

(** A parsed JSON value, as [response.json()] resolves to.  An object is
    its list of properties, each key once. *)
#[warnings="-register-all"]
Inductive value :=
| JNull
| JBool (b : bool)
| JNum (f : float)
| JStr (s : string)
| JArr (items : list value)
| JObj (props : list (string * value)).

Record User := mkUser {
  name : option string;
  info : option string;
}.

Definition setName (n : string) (u : User) : User :=
  {| name := Some n; info := info u |}.

Definition setInfo (i : string) (u : User) : User :=
  {| name := name u; info := Some i |}.

Inductive ModelProvider := gemini | local.

Definition isLocal (p : ModelProvider) : bool :=
  match p with local => true | gemini => false end.

Record Config := mkConfig {
  provider : ModelProvider;
  localEndpoint : string;
  localModelId : string;
}.

Definition initialConfig : Config :=
  {| provider := gemini;
     localEndpoint := "http://localhost:11434/v1";
     localModelId := "llama3" |}.

Definition setProvider (p : ModelProvider) (c : Config) : Config :=
  {| provider := p;
     localEndpoint := localEndpoint c;
     localModelId := localModelId c |}.

Definition setLocalEndpoint (e : string) (c : Config) : Config :=
  {| provider := provider c;
     localEndpoint := e;
     localModelId := localModelId c |}.

Definition setLocalModelId (i : string) (c : Config) : Config :=
  {| provider := provider c;
     localEndpoint := localEndpoint c;
     localModelId := i |}.

Inductive Role := user | model.

Record Attachment := mkAttachment {
  att_name : string;
  att_type : string;
  att_data : string;
}.

(** A grounding chunk of the SDK's response (the store types it [any]). *)
Record GroundingChunk := mkChunk {
  uri : option string;
  title : option string;
}.

(** [text] is declared [string]; the local branch of the dispatcher stores
    there whatever truthy value the server sent, so it is a [value].
    [timestamp] is the clock reading of [new Date()]. *)
Record ChatMessage := mkMsg {
  role : Role;
  text : value;
  timestamp : Z;
  attachments : option (list Attachment);
  groundingChunks : option (list GroundingChunk);
}.

Record UI := mkUI {
  showUserConfig : bool;
  showAgentEdit : bool;
  showChatAssistant : bool;
  chatMessages : list ChatMessage;
  isCodingMode : bool;
}.

Definition addChatMessage (msg : ChatMessage) (u : UI) : UI :=
  {| showUserConfig := showUserConfig u;
     showAgentEdit := showAgentEdit u;
     showChatAssistant := showChatAssistant u;
     chatMessages := chatMessages u ++ [msg];
     isCodingMode := isCodingMode u |}.

Definition setCodingMode (mode : bool) (u : UI) : UI :=
  {| showUserConfig := showUserConfig u;
     showAgentEdit := showAgentEdit u;
     showChatAssistant := showChatAssistant u;
     chatMessages := chatMessages u;
     isCodingMode := mode |}.

End Stores.

(** ** Reading the local server's reply *)
Module Json.
Import Stores.

(** Truthiness of a value: [null], [false], [0], [-0], [NaN] and [''] are
    falsy, everything else (objects and arrays too) is truthy. *)
Definition truthy (v : value) : bool :=
  match v with
  | JNull => false
  | JBool b => b
  | JNum f => negb (PrimFloat.is_zero f || PrimFloat.is_nan f)
  | JStr s => Js.truthy s
  | JArr _ => true
  | JObj _ => true
  end.

Fixpoint assoc (k : string) (props : list (string * value)) : option value :=
  match props with
  | [] => None
  | (k', v) :: rest => if String.eqb k' k then Some v else assoc k rest
  end.

(** [v.k] for a [v] that is neither [null] nor [undefined] and a key [k]
    that no prototype defines ([choices], [message], [content]): only an
    object can have it. *)
Definition prop (k : string) (v : value) : option value :=
  match v with
  | JObj props => assoc k props
  | _ => None
  end.

(** [v[0]] for such a [v]: the first item of an array, the first code unit
    of a string, the property ["0"] of an object. *)
Definition index0 (v : value) : option value :=
  match v with
  | JArr items => hd_error items
  | JStr (String c _) => Some (JStr (String c EmptyString))
  | JObj props => assoc "0" props
  | _ => None
  end.

(** One link [o?.access] of an optional chain: [undefined] when [o] is
    [null] or [undefined]. *)
Definition optional (access : value -> option value) (o : option value)
  : option value :=
  match o with
  | None => None
  | Some JNull => None
  | Some v => access v
  end.

(** [data.choices?.[0]?.message?.content]; [None] of the outer option is the
    [TypeError] of reading [choices] of [null]. *)
Definition choiceContent (data : value) : option (option value) :=
  match data with
  | JNull => None
  | _ => Some (optional (prop "content")
                (optional (prop "message")
                  (optional index0 (prop "choices" data))))
  end.

(** [x || 'Local engine error.'] *)
Definition orPlaceholder (x : option value) : value :=
  match x with
  | Some v => if truthy v then v else JStr "Local engine error."
  | None => JStr "Local engine error."
  end.

End Json.

(** ** The dispatcher ([sendMessage] of [ChatAssistant]) *)
Module Dispatch.
Import Stores.

(** *** What goes out and what comes back *)

(** A thrown value or the reason of a rejected promise. *)
Inductive Exn :=
| TypeError
| Rejected (reason : string).

(** One element of the cloud request's [parts]. *)
Inductive Part :=
| TextPart (text : string)
| InlineData (mimeType data : string).

Record Content := mkContent {
  c_role : string;
  parts : list Part;
}.

Inductive Tool := googleSearch.

Record GenerateConfig := mkGenerateConfig {
  systemInstruction : string;
  tools : list Tool;
}.

(** The argument of [ai.models.generateContent]. *)
Record GenerateContentParameters := mkParams {
  g_model : string;
  contents : list Content;
  config : GenerateConfig;
}.

Record GroundingMetadata := mkGroundingMetadata {
  gm_groundingChunks : option (list GroundingChunk);
}.

Record Candidate := mkCandidate {
  groundingMetadata : option GroundingMetadata;
}.

Record GenerateContentResponse := mkResponse {
  r_text : option string;
  candidates : option (list Candidate);
}.

(** One element of the local request's [messages]. *)
Record CompletionMessage := mkCompletionMessage {
  m_role : string;
  content : value;
}.

(** The object the local branch gives to [JSON.stringify]. *)
Record CompletionBody := mkBody {
  b_model : string;
  messages : list CompletionMessage;
  temperature : float;
}.

(** The second argument of [fetch]. *)
Record RequestInit := mkInit {
  method : string;
  headers : list (string * string);
  body : CompletionBody;
}.

(** A fetched response: what its [json()] promise settles to. *)
Record Response := mkFetched {
  json : Exn + value;
}.

(** What leaves the component. *)
Inductive Call :=
| CloudCall (params : GenerateContentParameters)
| LocalCall (url : string) (init : RequestInit).

(** The world outside the component, one dispatch long: whether the SDK's
    constructor accepts the key of the process environment, how the two
    backends answer a request, and the two readings of the clock. *)
Record Env := mkEnv {
  newGoogleGenAI : option Exn;
  generateContent : GenerateContentParameters -> Exn + GenerateContentResponse;
  fetch : string -> RequestInit -> Exn + Response;
  sentAt : Z;
  repliedAt : Z;
}.

(** *** The component's world *)

Record World := mkWorld {
  w_user : User;
  w_config : Config;
  w_ui : UI;
  input : string;
  loading : bool;
  w_attachments : list Attachment;
  defaultPrevented : bool;
  calls : list Call;
  console : list Exn;
}.

(** *** A state-and-exception monad *)

Definition M (A : Type) : Type := World -> (Exn + A) * World.

Definition ret {A} (a : A) : M A := fun w => (inr a, w).

Definition bind {A B} (m : M A) (k : A -> M B) : M B :=
  fun w =>
    match m w with
    | (inr a, w') => k a w'
    | (inl e, w') => (inl e, w')
    end.

Definition get : M World := fun w => (inr w, w).

Definition modify (f : World -> World) : M unit := fun w => (inr tt, f w).

Definition throw {A} (e : Exn) : M A := fun w => (inl e, w).

(** [await p] for a promise that has settled to [r]. *)
Definition await {A} (r : Exn + A) : M A :=
  match r with
  | inl e => throw e
  | inr a => ret a
  end.

(** [try { body } catch (err) { handler err } finally { cleanup }] *)
Definition tryCatchFinally (body : M unit) (handler : Exn -> M unit)
  (cleanup : M unit) : M unit :=
  fun w =>
    let (r, w1) :=
      match body w with
      | (inr a, w') => (inr a, w')
      | (inl e, w') => handler e w'
      end in
    match cleanup w1 with
    | (inr _, w2) => (r, w2)
    | (inl e, w2) => (inl e, w2)
    end.

Declare Scope dispatch_scope.
Delimit Scope dispatch_scope with dispatch.
Notation "x <- m ;; k" := (bind m (fun x => k))
  (at level 61, m at next level, right associativity) : dispatch_scope.
Notation "m ;; k" := (bind m (fun _ => k))
  (at level 61, right associativity) : dispatch_scope.
Local Open Scope dispatch_scope.

(** *** The setters the dispatcher calls *)

Definition addChatMessage (msg : ChatMessage) : M unit :=
  modify (fun w =>
    {| w_user := w_user w; w_config := w_config w;
       w_ui := Stores.addChatMessage msg (w_ui w);
       input := input w; loading := loading w;
       w_attachments := w_attachments w;
       defaultPrevented := defaultPrevented w;
       calls := calls w; console := console w |}).

Definition setInput (s : string) : M unit :=
  modify (fun w =>
    {| w_user := w_user w; w_config := w_config w; w_ui := w_ui w;
       input := s; loading := loading w;
       w_attachments := w_attachments w;
       defaultPrevented := defaultPrevented w;
       calls := calls w; console := console w |}).

Definition setAttachments (l : list Attachment) : M unit :=
  modify (fun w =>
    {| w_user := w_user w; w_config := w_config w; w_ui := w_ui w;
       input := input w; loading := loading w;
       w_attachments := l;
       defaultPrevented := defaultPrevented w;
       calls := calls w; console := console w |}).

Definition setLoading (b : bool) : M unit :=
  modify (fun w =>
    {| w_user := w_user w; w_config := w_config w; w_ui := w_ui w;
       input := input w; loading := b;
       w_attachments := w_attachments w;
       defaultPrevented := defaultPrevented w;
       calls := calls w; console := console w |}).

(** [e?.preventDefault()] for the optional form event. *)
Definition preventDefault (e : bool) : M unit :=
  modify (fun w =>
    {| w_user := w_user w; w_config := w_config w; w_ui := w_ui w;
       input := input w; loading := loading w;
       w_attachments := w_attachments w;
       defaultPrevented := defaultPrevented w || e;
       calls := calls w; console := console w |}).

Definition record (c : Call) : M unit :=
  modify (fun w =>
    {| w_user := w_user w; w_config := w_config w; w_ui := w_ui w;
       input := input w; loading := loading w;
       w_attachments := w_attachments w;
       defaultPrevented := defaultPrevented w;
       calls := calls w ++ [c]; console := console w |}).

Definition consoleError (err : Exn) : M unit :=
  modify (fun w =>
    {| w_user := w_user w; w_config := w_config w; w_ui := w_ui w;
       input := input w; loading := loading w;
       w_attachments := w_attachments w;
       defaultPrevented := defaultPrevented w;
       calls := calls w; console := console w ++ [err] |}).

(** *** Building the requests *)

Definition LF : string := String "010"%char EmptyString.

Definition codingInstruction : string :=
  "You are an anonymous coding agent. You are elite, pithy, and focused on executing and debugging complex code.".

(** [isCodingMode ? "..." : `You are a helpful personal assistant helping
    ${name || 'the user'}.`] *)
Definition systemInstructionOf (isCodingMode : bool) (name : option string)
  : string :=
  if isCodingMode then codingInstruction
  else "You are a helpful personal assistant helping "
       ++ Js.orElse name "the user" ++ ".".

(** [parts[0].text += suffix]; [parts] always starts with the text part. *)
Definition appendToFirstText (suffix : string) (ps : list Part) : list Part :=
  match ps with
  | TextPart t :: rest => TextPart (t ++ suffix) :: rest
  | _ => ps
  end.

(** The body of the [forEach] over the message's attachments. *)
Definition pushAttachment (ps : list Part) (att : Attachment) : list Part :=
  if Js.startsWith "image/" (att_type att)
  then ps ++ [InlineData (att_type att) (att_data att)]
  else appendToFirstText
         (LF ++ "[Attached File: " ++ att_name att ++ "]") ps.

Definition buildParts (input : string) (atts : list Attachment) : list Part :=
  fold_left pushAttachment atts [TextPart input].

(** The argument of [generateContent]. *)
Definition cloudParams (ps : list Part) (systemInstruction : string)
  (isCodingMode : bool) : GenerateContentParameters :=
  {| g_model := "gemini-3-pro-preview";
     contents := [ {| c_role := "user"; parts := ps |} ];
     config := {| systemInstruction := systemInstruction;
                  tools := if isCodingMode then [googleSearch] else [] |} |}.

(** [response.candidates?.[0]?.groundingMetadata?.groundingChunks] *)
Definition groundingChunksOf (r : GenerateContentResponse)
  : option (list GroundingChunk) :=
  match candidates r with
  | Some (c :: _) =>
      match groundingMetadata c with
      | Some gm => gm_groundingChunks gm
      | None => None
      end
  | _ => None
  end.

(** [m.role === 'user' ? 'user' : 'assistant'] *)
Definition completionRole (r : Role) : string :=
  match r with user => "user" | model => "assistant" end.

Definition replay (m : ChatMessage) : CompletionMessage :=
  {| m_role := completionRole (role m); content := text m |}.

(** The nearest double to 0.7, which is what the literal [0.7] denotes. *)
Definition temperature07 : float := 0x1.6666666666666p-1%float.

Definition completionBody (localModelId : string) (systemInstruction : string)
  (chatMessages : list ChatMessage) (input : string) : CompletionBody :=
  {| b_model := localModelId;
     messages :=
       {| m_role := "system"; content := JStr systemInstruction |}
       :: map replay chatMessages
       ++ [ {| m_role := "user"; content := JStr input |} ];
     temperature := temperature07 |}.

Definition completionsUrl (localEndpoint : string) : string :=
  Js.stripTrailingSlash localEndpoint ++ "/chat/completions".

Definition completionInit (b : CompletionBody) : RequestInit :=
  {| method := "POST";
     headers := [("Content-Type", "application/json")];
     body := b |}.

(** The text of the message the [catch] block appends. *)
Definition networkErrorText (p : ModelProvider) : string :=
  "Network Error: Verify that your "
  ++ (if isLocal p then "local server is running and CORS is enabled"
      else "API Key is valid")
  ++ ".".

(** *** [sendMessage] *)

(** [(!input.trim() && attachments.length === 0) || loading] *)
Definition rejected (w : World) : bool :=
  (negb (Js.truthy (Js.trim (input w)))
   && Nat.eqb (List.length (w_attachments w)) 0)
  || loading w.

(** The [gemini] branch of the [try] block; [c] holds the values the
    handler closed over. *)
Definition cloudBranch (env : Env) (c : World) (userMsg : ChatMessage)
  (systemInstruction : string) : M unit :=
  await (match newGoogleGenAI env with Some e => inl e | None => inr tt end) ;;
  let ps :=
    match attachments userMsg with
    | Some atts => buildParts (input c) atts
    | None => [TextPart (input c)]
    end in
  let params := cloudParams ps systemInstruction (isCodingMode (w_ui c)) in
  record (CloudCall params) ;;
  response <- await (generateContent env params) ;;
  addChatMessage
    {| role := model;
       text := JStr (Js.orElse (r_text response) "Empty response");
       timestamp := repliedAt env;
       attachments := None;
       groundingChunks := groundingChunksOf response |}.

(** The [local] branch of the [try] block. *)
Definition localBranch (env : Env) (c : World) (systemInstruction : string)
  : M unit :=
  let url := completionsUrl (localEndpoint (w_config c)) in
  let init :=
    completionInit
      (completionBody (localModelId (w_config c)) systemInstruction
         (chatMessages (w_ui c)) (input c)) in
  record (LocalCall url init) ;;
  response <- await (fetch env url init) ;;
  data <- await (json response) ;;
  found <- await (match Json.choiceContent data with
                  | Some x => inr x
                  | None => inl TypeError
                  end) ;;
  let text := Json.orPlaceholder found in
  addChatMessage
    {| role := model;
       text := text;
       timestamp := repliedAt env;
       attachments := None;
       groundingChunks := None |}.

(** [{ role: 'user', text: input, timestamp: new Date(),
      attachments: [...attachments] }] *)
Definition userMessage (env : Env) (c : World) : ChatMessage :=
  {| role := user;
     text := JStr (input c);
     timestamp := sentAt env;
     attachments := Some (w_attachments c);
     groundingChunks := None |}.

(** [sendMessage(e)], run to its end against [env].  [e] tells whether a
    form event was passed.  The handler closes over the values of the
    render that made it: they are read once, from the world it starts in. *)
Definition sendMessage (env : Env) (e : bool) : M unit :=
  preventDefault e ;;
  c <- get ;;
  if rejected c then ret tt
  else
    let userMsg := userMessage env c in
    addChatMessage userMsg ;;
    setInput "" ;;
    setAttachments [] ;;
    setLoading true ;;
    tryCatchFinally
      (let systemInstruction :=
         systemInstructionOf (isCodingMode (w_ui c)) (name (w_user c)) in
       match provider (w_config c) with
       | gemini => cloudBranch env c userMsg systemInstruction
       | local => localBranch env c systemInstruction
       end)
      (fun err =>
         consoleError err ;;
         addChatMessage
           {| role := model;
              text := JStr (networkErrorText (provider (w_config c)));
              timestamp := repliedAt env;
              attachments := None;
              groundingChunks := None |})
      (setLoading false).

(** *** How a dispatch can fail

    The places of the [try] block that can throw, in the order the block
    reaches them: the SDK's constructor and the generation call on the
    cloud side; the fetch, the reading of the body as JSON and the read of
    [choices] of [null] on the local side.  [failure env w] is what is
    thrown, if anything, when the dispatch starts in [w]. *)
Definition failure (env : Env) (w : World) : option Exn :=
  let systemInstruction :=
    systemInstructionOf (isCodingMode (w_ui w)) (name (w_user w)) in
  match provider (w_config w) with
  | gemini =>
      match newGoogleGenAI env with
      | Some err => Some err
      | None =>
          match generateContent env
                  (cloudParams (buildParts (input w) (w_attachments w))
                     systemInstruction (isCodingMode (w_ui w))) with
          | inl err => Some err
          | inr _ => None
          end
      end
  | local =>
      match fetch env (completionsUrl (localEndpoint (w_config w)))
              (completionInit
                 (completionBody (localModelId (w_config w)) systemInstruction
                    (chatMessages (w_ui w)) (input w))) with
      | inl err => Some err
      | inr response =>
          match json response with
          | inl err => Some err
          | inr data =>
              match Json.choiceContent data with
              | None => Some TypeError
              | Some _ => None
              end
          end
      end
  end.

(** The same world with another message log. *)
Definition withHistory (h : list ChatMessage) (w : World) : World :=
  {| w_user := w_user w; w_config := w_config w;
     w_ui := {| showUserConfig := showUserConfig (w_ui w);
                showAgentEdit := showAgentEdit (w_ui w);
                showChatAssistant := showChatAssistant (w_ui w);
                chatMessages := h;
                isCodingMode := isCodingMode (w_ui w) |};
     input := input w; loading := loading w;
     w_attachments := w_attachments w;
     defaultPrevented := defaultPrevented w;
     calls := calls w; console := console w |}.

End Dispatch.

(** ** The UI store's other setters, and runs of store actions *)
Module StoreActions.
Import Stores.

Definition setShowUserConfig (show : bool) (u : UI) : UI :=
  {| showUserConfig := show;
     showAgentEdit := showAgentEdit u;
     showChatAssistant := showChatAssistant u;
     chatMessages := chatMessages u;
     isCodingMode := isCodingMode u |}.

Definition setShowAgentEdit (show : bool) (u : UI) : UI :=
  {| showUserConfig := showUserConfig u;
     showAgentEdit := show;
     showChatAssistant := showChatAssistant u;
     chatMessages := chatMessages u;
     isCodingMode := isCodingMode u |}.

Definition setShowChatAssistant (show : bool) (u : UI) : UI :=
  {| showUserConfig := showUserConfig u;
     showAgentEdit := showAgentEdit u;
     showChatAssistant := show;
     chatMessages := chatMessages u;
     isCodingMode := isCodingMode u |}.

(** A call of one of the setters of [useUI]. *)
Inductive UIAction :=
| SetShowUserConfig (show : bool)
| SetShowAgentEdit (show : bool)
| SetShowChatAssistant (show : bool)
| AddChatMessage (msg : ChatMessage)
| SetCodingMode (mode : bool).

Definition applyUI (u : UI) (a : UIAction) : UI :=
  match a with
  | SetShowUserConfig show => setShowUserConfig show u
  | SetShowAgentEdit show => setShowAgentEdit show u
  | SetShowChatAssistant show => setShowChatAssistant show u
  | AddChatMessage msg => addChatMessage msg u
  | SetCodingMode mode => setCodingMode mode u
  end.

(** The calls of [acts], made one after the other. *)
Definition runUI (acts : list UIAction) (u : UI) : UI :=
  fold_left applyUI acts u.

(** The messages that the [addChatMessage] calls of [acts] pass, in call
    order. *)
Fixpoint added (acts : list UIAction) : list ChatMessage :=
  match acts with
  | [] => []
  | AddChatMessage msg :: rest => msg :: added rest
  | _ :: rest => added rest
  end.

(** A call of one of the operations of [useAgent]. *)
Inductive AgentAction :=
| AddAgent (agent : AgentStore.Agent)
| SetCurrent (agent : AgentStore.AgentOrId)
| Update (agentId : string) (adjustments : AgentStore.PartialAgent).

(** One call; [None] when it throws (the store keeps its state, the caller
    gets the exception). *)
Definition applyAgent (s : AgentStore.State) (a : AgentAction)
  : option AgentStore.State :=
  match a with
  | AddAgent agent => Some (AgentStore.addAgent agent s)
  | SetCurrent agent => Some (AgentStore.setCurrent agent s)
  | Update agentId adjustments =>
      match AgentStore.update agentId adjustments s with
      | AgentStore.Done s' => Some s'
      | AgentStore.TypeError => None
      end
  end.

(** The calls of [acts], made one after the other, up to the first that
    throws. *)
Fixpoint runAgent (acts : list AgentAction) (s : AgentStore.State)
  : option AgentStore.State :=
  match acts with
  | [] => Some s
  | a :: rest =>
      match applyAgent s a with
      | Some s' => runAgent rest s'
      | None => None
      end
  end.

(** How many of [acts] are [addAgent] calls. *)
Fixpoint addAgentCalls (acts : list AgentAction) : nat :=
  match acts with
  | [] => 0
  | AddAgent _ :: rest => S (addAgentCalls rest)
  | _ :: rest => addAgentCalls rest
  end.

End StoreActions.

(** ** The attachment buffer of the component *)
Module Attachments.
Import Stores.

(** [s.split(sep)] for a separator of one character: the pieces between
    the separators, [['']] for the empty string. *)
Fixpoint split (sep : ascii) (s : string) : list string :=
  match s with
  | EmptyString => [EmptyString]
  | String c r =>
      if Ascii.eqb c sep then EmptyString :: split sep r
      else match split sep r with
           | piece :: pieces => String c piece :: pieces
           | [] => [String c EmptyString]
           end
  end.

(** [(readerEvent.target?.result as string).split(',')[1]] of
    [handleFileUpload]: what follows the first comma of the data URL, up to
    the next one; [undefined] when there is no comma. *)
Definition base64Of (result : string) : option string :=
  nth_error (split "," result) 1.

(** [prev.filter((_, idx) => idx !== i)], the filter running from index
    [idx]. *)
Fixpoint filterOutIndex (i idx : nat) (prev : list Attachment)
  : list Attachment :=
  match prev with
  | [] => []
  | att :: rest =>
      if negb (Nat.eqb idx i) then att :: filterOutIndex i (S idx) rest
      else filterOutIndex i (S idx) rest
  end.

(** The updater the close button of chip [i] gives to [setAttachments]. *)
Definition removeChip (i : nat) (prev : list Attachment) : list Attachment :=
  filterOutIndex i 0 prev.

(** The updater [prev => [...prev, att]] of the reader's [onload]. *)
Definition appendAttachment (att : Attachment) (prev : list Attachment)
  : list Attachment :=
  prev ++ [att].

(** Whether the character [c] occurs in [s]. *)
Fixpoint occurs (c : ascii) (s : string) : bool :=
  match s with
  | EmptyString => false
  | String c' r => Ascii.eqb c' c || occurs c r
  end.

End Attachments.

(** ** The component's other handlers *)
Module Handlers.
Import Stores Dispatch.
Local Open Scope dispatch_scope.

(** [onChange] of the text area: [setInput(e.target.value)]. *)
Definition onChange (value : string) : M unit := setInput value.

(** [setX(prev => f prev)] for the attachment buffer. *)
Definition updateAttachments (f : list Attachment -> list Attachment)
  : M unit :=
  modify (fun w =>
    {| w_user := w_user w; w_config := w_config w; w_ui := w_ui w;
       input := input w; loading := loading w;
       w_attachments := f (w_attachments w);
       defaultPrevented := defaultPrevented w;
       calls := calls w; console := console w |}).

(** [onClick] of the close button of chip [i]. *)
Definition onRemoveChip (i : nat) : M unit :=
  updateAttachments (Attachments.removeChip i).

(** The same world with other attachments. *)
Definition withAttachments (atts : list Attachment) (w : World) : World :=
  {| w_user := w_user w; w_config := w_config w; w_ui := w_ui w;
     input := input w; loading := loading w;
     w_attachments := atts;
     defaultPrevented := defaultPrevented w;
     calls := calls w; console := console w |}.

End Handlers.

(** ** The cloud-only dispatcher ([src/components/ChatAssistant.tsx])

    The component as it was before the configuration store: one backend,
    longer instructions, other notices. *)
Module CloudOnly.
Import Stores Dispatch.
Local Open Scope dispatch_scope.

Definition codingInstruction : string :=
  "You are an anonymous coding agent. You are elite, pithy, and focused on executing and debugging complex code. You provide complete, production-ready code blocks and simulated terminal output if 'execution' is requested. Your tone is professional but mysterious.".

Definition systemInstructionOf (isCodingMode : bool) (name : option string)
  : string :=
  if isCodingMode then codingInstruction
  else "You are a helpful personal assistant named Gemini. You are helping "
       ++ Js.orElse name "the user" ++ " with their tasks and documents.".

Definition connectErrorText : string :=
  "Error: Failed to connect to Gemini Pro. Please check your network or API key.".

Definition sendMessage (env : Env) (e : bool) : M unit :=
  preventDefault e ;;
  c <- get ;;
  if rejected c then ret tt
  else
    let userMsg := userMessage env c in
    addChatMessage userMsg ;;
    setInput "" ;;
    setAttachments [] ;;
    setLoading true ;;
    tryCatchFinally
      (await (match newGoogleGenAI env with
              | Some err => inl err
              | None => inr tt
              end) ;;
       let ps :=
         match attachments userMsg with
         | Some atts => buildParts (input c) atts
         | None => [TextPart (input c)]
         end in
       let systemInstruction :=
         systemInstructionOf (isCodingMode (w_ui c)) (name (w_user c)) in
       let params :=
         cloudParams ps systemInstruction (isCodingMode (w_ui c)) in
       record (CloudCall params) ;;
       response <- await (generateContent env params) ;;
       let modelMsg :=
         {| role := model;
            text := JStr (Js.orElse (r_text response)
                            "I encountered an error processing your request.");
            timestamp := repliedAt env;
            attachments := None;
            groundingChunks := groundingChunksOf response |} in
       addChatMessage modelMsg)
      (fun err =>
         consoleError err ;;
         addChatMessage
           {| role := model;
              text := JStr connectErrorText;
              timestamp := repliedAt env;
              attachments := None;
              groundingChunks := None |})
      (setLoading false).

End CloudOnly.

(** ** The parts of a cloud request, in closed form *)
Module Parts.
Import Stores Dispatch.

Definition isImage (att : Attachment) : bool :=
  Js.startsWith "image/" (att_type att).

(** The lines naming the attachments that are not images, in order. *)
Fixpoint mentions (atts : list Attachment) : string :=
  match atts with
  | [] => EmptyString
  | att :: rest =>
      if isImage att then mentions rest
      else (LF ++ "[Attached File: " ++ att_name att ++ "]") ++ mentions rest
  end.

(** The inline parts of the attachments that are images, in order. *)
Fixpoint inlines (atts : list Attachment) : list Part :=
  match atts with
  | [] => []
  | att :: rest =>
      if isImage att
      then InlineData (att_type att) (att_data att) :: inlines rest
      else inlines rest
  end.

(** What a call carries apart from the system instruction: for a cloud
    call the model, the contents and the tools. *)
Definition payload (c : Call)
  : option (string * list Content * list Tool) :=
  match c with
  | CloudCall params =>
      Some (g_model params, contents params, tools (config params))
  | LocalCall _ _ => None
  end.

End Parts.

(** ** Where a dispatch ends

    The world a dispatch that passes the guard ends in, written out in one
    piece from the answers of the environment; the dispatcher is proved to
    end there. *)
Module Settled.
Import Stores Dispatch.

(** The calls a dispatch started in [w] makes. *)
Definition outbound (env : Env) (w : World) : list Call :=
  let systemInstruction :=
    systemInstructionOf (isCodingMode (w_ui w)) (name (w_user w)) in
  match provider (w_config w) with
  | gemini =>
      match newGoogleGenAI env with
      | Some _ => []
      | None =>
          [CloudCall
             (cloudParams (buildParts (input w) (w_attachments w))
                systemInstruction (isCodingMode (w_ui w)))]
      end
  | local =>
      [LocalCall (completionsUrl (localEndpoint (w_config w)))
         (completionInit
            (completionBody (localModelId (w_config w)) systemInstruction
               (chatMessages (w_ui w)) (input w)))]
  end.

Definition notice (env : Env) (w : World) : ChatMessage :=
  {| role := model;
     text := JStr (networkErrorText (provider (w_config w)));
     timestamp := repliedAt env;
     attachments := None;
     groundingChunks := None |}.

(** The message appended after the user's. *)
Definition reply (env : Env) (w : World) : ChatMessage :=
  let systemInstruction :=
    systemInstructionOf (isCodingMode (w_ui w)) (name (w_user w)) in
  match provider (w_config w) with
  | gemini =>
      match newGoogleGenAI env with
      | Some _ => notice env w
      | None =>
          match generateContent env
                  (cloudParams (buildParts (input w) (w_attachments w))
                     systemInstruction (isCodingMode (w_ui w))) with
          | inl _ => notice env w
          | inr response =>
              {| role := model;
                 text := JStr (Js.orElse (r_text response) "Empty response");
                 timestamp := repliedAt env;
                 attachments := None;
                 groundingChunks := groundingChunksOf response |}
          end
      end
  | local =>
      match fetch env (completionsUrl (localEndpoint (w_config w)))
              (completionInit
                 (completionBody (localModelId (w_config w)) systemInstruction
                    (chatMessages (w_ui w)) (input w))) with
      | inl _ => notice env w
      | inr response =>
          match json response with
          | inl _ => notice env w
          | inr data =>
              match Json.choiceContent data with
              | None => notice env w
              | Some found =>
                  {| role := model;
                     text := Json.orPlaceholder found;
                     timestamp := repliedAt env;
                     attachments := None;
                     groundingChunks := None |}
              end
          end
      end
  end.

Definition settled (env : Env) (e : bool) (w : World) : World :=
  {| w_user := w_user w;
     w_config := w_config w;
     w_ui := Stores.addChatMessage (reply env w)
               (Stores.addChatMessage (userMessage env w) (w_ui w));
     input := "";
     loading := false;
     w_attachments := [];
     defaultPrevented := defaultPrevented w || e;
     calls := calls w ++ outbound env w;
     console := console w ++ match failure env w with
                             | Some err => [err]
                             | None => []
                             end |}.

End Settled.

(** ** Concrete stores used to run the definitions *)
Module Examples.
Import Stores.
Local Open Scope Z_scope.

Definition paul : AgentStore.Agent :=
  {| AgentStore.id := "paul"; AgentStore.name := "Paul";
     AgentStore.systemPromptFragment := "You are Paul.";
     AgentStore.voice := "Puck"; AgentStore.visual := "#4285f4" |}.

Definition charlotte : AgentStore.Agent :=
  {| AgentStore.id := "charlotte"; AgentStore.name := "Charlotte";
     AgentStore.systemPromptFragment := "You are Charlotte.";
     AgentStore.voice := "Aoede"; AgentStore.visual := "#a142f4" |}.

(** An agent that is in neither list. *)
Definition guest : AgentStore.Agent :=
  {| AgentStore.id := "guest"; AgentStore.name := "Guest";
     AgentStore.systemPromptFragment := "You are a guest.";
     AgentStore.voice := "Puck"; AgentStore.visual := "#888888" |}.

(** A personal agent that reuses the identifier of a preset. *)
Definition paulCopy : AgentStore.Agent :=
  {| AgentStore.id := "paul"; AgentStore.name := "My Paul";
     AgentStore.systemPromptFragment := "You are my Paul.";
     AgentStore.voice := "Kore"; AgentStore.visual := "#000000" |}.

Definition registry : AgentStore.State :=
  {| AgentStore.current := Some paul;
     AgentStore.availablePresets := [paul; charlotte];
     AgentStore.availablePersonal := [] |}.

Definition registryWithCopy : AgentStore.State :=
  {| AgentStore.current := Some paul;
     AgentStore.availablePresets := [paul; charlotte];
     AgentStore.availablePersonal := [paulCopy] |}.

Definition rename (n : string) : AgentStore.PartialAgent :=
  {| AgentStore.p_id := None; AgentStore.p_name := Some n;
     AgentStore.p_systemPromptFragment := None;
     AgentStore.p_voice := None; AgentStore.p_visual := None |}.

Definition reidentify (i : string) : AgentStore.PartialAgent :=
  {| AgentStore.p_id := Some i; AgentStore.p_name := None;
     AgentStore.p_systemPromptFragment := None;
     AgentStore.p_voice := None; AgentStore.p_visual := None |}.

(** The reply [{choices:[{message:{content:c}}]}]. *)
Definition completion (c : value) : value :=
  JObj [("choices", JArr [JObj [("message", JObj [("content", c)])]])].

Definition hiData : value := completion (JStr "hi").

(** A local server that answers every request with [data]; the cloud is
    not reachable. *)
Definition mockedLocal (data : value) : Dispatch.Env :=
  {| Dispatch.newGoogleGenAI := None;
     Dispatch.generateContent := fun _ => inl (Dispatch.Rejected "offline");
     Dispatch.fetch := fun _ _ => inr {| Dispatch.json := inr data |};
     Dispatch.sentAt := 1000;
     Dispatch.repliedAt := 2000 |}.

(** An SDK whose generation call fails with a network error; no local
    server either. *)
Definition cloudDown : Dispatch.Env :=
  {| Dispatch.newGoogleGenAI := None;
     Dispatch.generateContent := fun _ => inl (Dispatch.Rejected "network");
     Dispatch.fetch := fun _ _ => inl (Dispatch.Rejected "refused");
     Dispatch.sentAt := 1000;
     Dispatch.repliedAt := 2000 |}.

Definition photo : Attachment :=
  {| att_name := "cat.png"; att_type := "image/png"; att_data := "iVBORw0KGgo=" |}.

Definition notes : Attachment :=
  {| att_name := "notes.pdf"; att_type := "application/pdf"; att_data := "JVBERi0x" |}.

Definition greeting : ChatMessage :=
  {| role := user; text := JStr "hello"; timestamp := 10;
     attachments := Some []; groundingChunks := None |}.

Definition welcome : ChatMessage :=
  {| role := model; text := JStr "Hello, how can I help?"; timestamp := 20;
     attachments := None; groundingChunks := None |}.

(** The component with the assistant open, a two-message log and nothing
    in flight. *)
Definition world (p : ModelProvider) (endpoint : string) (typed : string)
  (atts : list Attachment) : Dispatch.World :=
  {| Dispatch.w_user := {| name := Some "Ada"; info := Some "" |};
     Dispatch.w_config :=
       {| provider := p; localEndpoint := endpoint; localModelId := "llama3" |};
     Dispatch.w_ui :=
       {| showUserConfig := false; showAgentEdit := false;
          showChatAssistant := true;
          chatMessages := [greeting; welcome];
          isCodingMode := false |};
     Dispatch.input := typed;
     Dispatch.loading := false;
     Dispatch.w_attachments := atts;
     Dispatch.defaultPrevented := false;
     Dispatch.calls := [];
     Dispatch.console := [] |}.

(** The same component while a dispatch is in flight. *)
Definition busyWorld : Dispatch.World :=
  {| Dispatch.w_user := {| name := Some "Ada"; info := Some "" |};
     Dispatch.w_config := initialConfig;
     Dispatch.w_ui :=
       {| showUserConfig := false; showAgentEdit := false;
          showChatAssistant := true;
          chatMessages := [greeting];
          isCodingMode := false |};
     Dispatch.input := "are you there?";
     Dispatch.loading := true;
     Dispatch.w_attachments := [];
     Dispatch.defaultPrevented := false;
     Dispatch.calls := [];
     Dispatch.console := [] |}.

(** An SDK that answers every request with [response]. *)
Definition cloudAnswers (response : Dispatch.GenerateContentResponse)
  : Dispatch.Env :=
  {| Dispatch.newGoogleGenAI := None;
     Dispatch.generateContent := fun _ => inr response;
     Dispatch.fetch := fun _ _ => inl (Dispatch.Rejected "refused");
     Dispatch.sentAt := 1000;
     Dispatch.repliedAt := 2000 |}.

(** A response with an empty text and one grounded candidate. *)
Definition groundedEmpty : Dispatch.GenerateContentResponse :=
  {| Dispatch.r_text := Some "";
     Dispatch.candidates :=
       Some [ {| Dispatch.groundingMetadata :=
                   Some {| Dispatch.gm_groundingChunks :=
                             Some [ {| uri := Some "https://example.org";
                                       title := None |} ] |} |} ] |}.

(** The body [{error: "model not found"}] of a server that refuses. *)
Definition errorPayload : value :=
  JObj [("error", JStr "model not found")].

End Examples.

(** ** The agent registry *)
Section AgentRegistry.
Import AgentStore.

Lemma find_hasId_id (i : string) (l : list Agent) (a : Agent) :
  find (hasId i) l = Some a -> id a = i.
Proof.
  intros H. apply find_some in H. destruct H as [_ H].
  unfold hasId in H. now apply String.eqb_eq.
Qed.

Lemma getAgentById_id (i : string) (s : State) (a : Agent) :
  getAgentById i s = Some a -> id a = i.
Proof.
  unfold getAgentById.
  destruct (find (hasId i) (availablePersonal s)) eqn:E.
  - intros [= <-]. eapply find_hasId_id; eauto.
  - apply find_hasId_id.
Qed.

(** An identifier that no agent of either list carries resolves to
    [undefined]. *)
Lemma getAgentById_unknown (i : string) (s : State) :
  (forall a, In a (availablePersonal s) -> id a <> i) ->
  (forall a, In a (availablePresets s) -> id a <> i) ->
  getAgentById i s = None.
Proof.
  intros Hp Hq. unfold getAgentById.
  destruct (find (hasId i) (availablePersonal s)) eqn:E.
  - exfalso. apply (Hp a); [ eapply find_some; eauto | eapply find_hasId_id; eauto ].
  - destruct (find (hasId i) (availablePresets s)) eqn:F; [ | reflexivity ].
    exfalso. apply (Hq a); [ eapply find_some; eauto | eapply find_hasId_id; eauto ].
Qed.

(** [setCurrent] with an identifier that matches no agent stores
    [undefined] in [current], whatever was there. *)
Lemma setCurrent_unknown (i : string) (s : State) :
  (forall a, In a (availablePersonal s) -> id a <> i) ->
  (forall a, In a (availablePresets s) -> id a <> i) ->
  current (setCurrent (ById i) s) = None.
Proof.
  intros Hp Hq. simpl. now apply getAgentById_unknown.
Qed.

(** C1, on the code: in the registry whose presets are Paul and Charlotte
    and whose current agent is Paul, ["nonexistent-id"] matches no agent,
    and [setCurrent "nonexistent-id"] does not leave [current] as it was:
    it replaces Paul by [undefined]. *)
Theorem setCurrent_unknown_id_loses_current :
  getAgentById "nonexistent-id" Examples.registry = None /\
  current Examples.registry = Some Examples.paul /\
  current (setCurrent (ById "nonexistent-id") Examples.registry) = None /\
  current (setCurrent (ById "nonexistent-id") Examples.registry)
    <> current Examples.registry.
Proof.
  repeat split; try reflexivity. discriminate.
Qed.

(** Once [current] is [undefined], an [update] of an agent that exists
    throws when it reads [state.current.id]. *)
Example update_after_unknown_setCurrent_throws :
  update "paul" (Examples.rename "Pablo")
    (setCurrent (ById "nonexistent-id") Examples.registry) = TypeError.
Proof. reflexivity. Qed.

(** With an identifier that matches, [setCurrent] selects the first match,
    personal agents before presets. *)
Example setCurrent_known_id :
  current (setCurrent (ById "paul") Examples.registryWithCopy)
    = Some Examples.paulCopy.
Proof. reflexivity. Qed.

Lemma replaceById_nth (i : string) (u : Agent) (l : list Agent) (n : nat) (a : Agent) :
  nth_error l n = Some a ->
  nth_error (replaceById i u l) n = Some (if hasId i a then u else a).
Proof.
  intros H. unfold replaceById. rewrite nth_error_map, H. reflexivity.
Qed.

Lemma replaceById_In (i : string) (u : Agent) (l : list Agent) (a : Agent) :
  In a (replaceById i u l) -> id a = i -> a = u.
Proof.
  unfold replaceById. intros H Hid. apply in_map_iff in H.
  destruct H as [b [Hb _]]. unfold hasId in Hb.
  destruct (String.eqb_spec (id b) i) as [_ | Hne]; [ now symmetry | ].
  subst b. contradiction.
Qed.

Lemma spread_get (f : Field) (agent : Agent) (adj : PartialAgent) :
  get f (spread agent adj) = over (pget f adj) (get f agent).
Proof. destruct f; reflexivity. Qed.

(** When the lookup of [agentId] gives [agent] and [current] holds an
    agent, [update] replaces every holder of the identifier by the merged
    agent. *)
Lemma update_found_propagates (agentId : string) (adjustments : PartialAgent)
  (s : State) (agent c : Agent) :
  getAgentById agentId s = Some agent ->
  current s = Some c ->
  exists s',
    update agentId adjustments s = Done s' /\
    let updatedAgent := spread agent adjustments in
    (forall n a, nth_error (availablePresets s) n = Some a -> id a = agentId ->
                 nth_error (availablePresets s') n = Some updatedAgent) /\
    (forall n a, nth_error (availablePersonal s) n = Some a -> id a = agentId ->
                 nth_error (availablePersonal s') n = Some updatedAgent) /\
    (id c = agentId -> current s' = Some updatedAgent) /\
    (forall f v, pget f adjustments = Some v -> get f updatedAgent = v) /\
    (forall f, pget f adjustments = None -> get f updatedAgent = get f agent) /\
    (forall a, In a (availablePresets s') -> id a = agentId -> a = updatedAgent) /\
    (forall a, In a (availablePersonal s') -> id a = agentId -> a = updatedAgent) /\
    (forall a, current s' = Some a -> id a = agentId -> a = updatedAgent).
Proof.
  intros Hfind Hcur. unfold update. rewrite Hfind, Hcur.
  eexists. split; [ reflexivity | ]. cbn zeta. simpl.
  repeat split.
  - intros n a Hn Hid. rewrite (replaceById_nth _ _ _ _ Hn).
    unfold hasId. rewrite Hid, String.eqb_refl. reflexivity.
  - intros n a Hn Hid. rewrite (replaceById_nth _ _ _ _ Hn).
    unfold hasId. rewrite Hid, String.eqb_refl. reflexivity.
  - intros Hid. unfold hasId. rewrite Hid, String.eqb_refl. reflexivity.
  - intros f v Hv. rewrite spread_get, Hv. reflexivity.
  - intros f Hv. rewrite spread_get, Hv. reflexivity.
  - intros a. apply replaceById_In.
  - intros a. apply replaceById_In.
  - intros a [= <-] Hid. unfold hasId in *.
    destruct (String.eqb_spec (id c) agentId) as [_ | Hne]; [ reflexivity | ].
    contradiction.
Qed.

(** The first agent of a list that carries an identifier some agent of the
    list carries. *)
Lemma find_first_with_id (i : string) (l : list Agent) :
  (exists a, In a l /\ id a = i) ->
  exists agent before after,
    find (hasId i) l = Some agent /\
    id agent = i /\
    l = before ++ agent :: after /\
    (forall a, In a before -> id a <> i).
Proof.
  induction l as [ | b l IH ]; intros [a [Hin Hid]]; [ destruct Hin | ].
  cbn [find]. destruct (hasId i b) eqn:Hb.
  - exists b, [], l. unfold hasId in Hb. apply String.eqb_eq in Hb.
    repeat split; [ exact Hb | intros ? [] ].
  - assert (Hne : id b <> i)
      by (unfold hasId in Hb; now apply String.eqb_neq).
    destruct Hin as [-> | Hin]; [ contradiction | ].
    destruct IH as [agent [before [after [Hfind [Hagent [-> Hbefore]]]]]];
      [ now exists a | ].
    exists agent, (b :: before), after.
    repeat split; [ exact Hfind | exact Hagent | ].
    intros x [<- | Hx]; [ exact Hne | now apply Hbefore ].
Qed.

(** C3, as the code has it: [update] searches the two lists only.  In a
    state whose [current] holds an agent:
    - when some agent of the personal or of the preset list carries
      [agentId], the agent found is the first personal one that carries
      it, else the first preset one, and [update agentId adjustments]
      makes one transition to a state in which every slot of either list
      that held an agent with that identifier, and [current] if it carried
      it, holds the same merged agent [{...found, ...adjustments}]; the
      merged agent has every adjusted field at its new value and every
      other field as the found agent had it; and in the new state whatever
      carries [agentId], in either list or in [current], is that merged
      agent;
    - when no agent of either list carries [agentId], also when [current]
      does, nothing is found and the update changes nothing. *)
Theorem update_propagates_from_lists (agentId : string)
  (adjustments : PartialAgent) (s : State) (c : Agent) :
  current s = Some c ->
  ((exists a, (In a (availablePersonal s) \/ In a (availablePresets s)) /\
              id a = agentId) ->
   exists agent s',
     id agent = agentId /\
     ((exists before after,
         availablePersonal s = before ++ agent :: after /\
         forall a, In a before -> id a <> agentId) \/
      ((forall a, In a (availablePersonal s) -> id a <> agentId) /\
       exists before after,
         availablePresets s = before ++ agent :: after /\
         forall a, In a before -> id a <> agentId)) /\
     update agentId adjustments s = Done s' /\
     let updatedAgent := spread agent adjustments in
     (forall n a, nth_error (availablePresets s) n = Some a -> id a = agentId ->
                  nth_error (availablePresets s') n = Some updatedAgent) /\
     (forall n a, nth_error (availablePersonal s) n = Some a -> id a = agentId ->
                  nth_error (availablePersonal s') n = Some updatedAgent) /\
     (id c = agentId -> current s' = Some updatedAgent) /\
     (forall f v, pget f adjustments = Some v -> get f updatedAgent = v) /\
     (forall f, pget f adjustments = None -> get f updatedAgent = get f agent) /\
     (forall a, In a (availablePresets s') -> id a = agentId -> a = updatedAgent) /\
     (forall a, In a (availablePersonal s') -> id a = agentId -> a = updatedAgent) /\
     (forall a, current s' = Some a -> id a = agentId -> a = updatedAgent)) /\
  ((forall a, In a (availablePersonal s) -> id a <> agentId) ->
   (forall a, In a (availablePresets s) -> id a <> agentId) ->
   update agentId adjustments s = Done s /\ current s = Some c).
Proof.
  intros Hcur. split.
  - intros [a [Hin Hid]].
    assert (Hfound : exists agent,
              getAgentById agentId s = Some agent /\
              id agent = agentId /\
              ((exists before after,
                  availablePersonal s = before ++ agent :: after /\
                  forall a, In a before -> id a <> agentId) \/
               ((forall a, In a (availablePersonal s) -> id a <> agentId) /\
                exists before after,
                  availablePresets s = before ++ agent :: after /\
                  forall a, In a before -> id a <> agentId))).
    { unfold getAgentById.
      destruct (find (hasId agentId) (availablePersonal s)) as [b | ] eqn:E.
      - destruct (@find_first_with_id agentId (availablePersonal s))
          as [agent [before [after [Hfind [Hagent [Hsplit Hbefore]]]]]].
        { exists b. split; [ eapply find_some; eauto | ].
          eapply find_hasId_id; eauto. }
        rewrite E in Hfind. injection Hfind as ->.
        exists agent. split; [ reflexivity | ]. split; [ exact Hagent | ].
        left. now exists before, after.
      - assert (Hnone : forall x, In x (availablePersonal s) -> id x <> agentId).
        { intros x Hx. apply (find_none _ _ E) in Hx.
          unfold hasId in Hx. now apply String.eqb_neq. }
        destruct Hin as [Hin | Hin]; [ exfalso; exact (Hnone a Hin Hid) | ].
        destruct (@find_first_with_id agentId (availablePresets s))
          as [agent [before [after [Hfind [Hagent [Hsplit Hbefore]]]]]];
          [ now exists a | ].
        exists agent. split; [ exact Hfind | ]. split; [ exact Hagent | ].
        right. split; [ exact Hnone | now exists before, after ]. }
    destruct Hfound as [agent [Hfind [Hagent Hfirst]]].
    destruct (@update_found_propagates agentId adjustments s agent c Hfind Hcur)
      as [s' [Hrun Hall]].
    exists agent, s'. split; [ exact Hagent | ]. split; [ exact Hfirst | ].
    split; [ exact Hrun | exact Hall ].
  - intros Hp Hq. split; [ | exact Hcur ].
    unfold update. now rewrite (@getAgentById_unknown _ _ Hp Hq).
Qed.

(** [update] at the registry of presets only, renaming ["paul"]: the agent
    is found among the presets, and the preset slot and [current] receive
    the merge. *)
Lemma update_propagates_from_lists_witness :
  current Examples.registry = Some Examples.paul /\
  (exists a, (In a (availablePersonal Examples.registry) \/
              In a (availablePresets Examples.registry)) /\
             id a = "paul") /\
  exists agent s',
    id agent = "paul" /\
    update "paul" (Examples.rename "Pablo") Examples.registry = Done s' /\
    nth_error (availablePresets s') 0
      = Some (spread agent (Examples.rename "Pablo")) /\
    current s' = Some (spread agent (Examples.rename "Pablo")) /\
    get Fname (spread agent (Examples.rename "Pablo")) = "Pablo".
Proof.
  assert (Hin : exists a,
            (In a (availablePersonal Examples.registry) \/
             In a (availablePresets Examples.registry)) /\
            id a = "paul").
  { exists Examples.paul. split; [ right; left; reflexivity | reflexivity ]. }
  split; [ reflexivity | ]. split; [ exact Hin | ].
  destruct (proj1 (@update_propagates_from_lists "paul"
                     (Examples.rename "Pablo") Examples.registry
                     Examples.paul eq_refl) Hin)
    as [agent [s' [Hid [_ [Hrun [Hpre [_ [Hcur [Hset _]]]]]]]]].
  exists agent, s'. split; [ exact Hid | ]. split; [ exact Hrun | ].
  split; [ apply (Hpre 0 Examples.paul); reflexivity | ].
  split; [ apply Hcur; reflexivity | ].
  apply (Hset Fname). reflexivity.
Defined.

(** C3 as stated fails where only [current] carries the identifier.  After
    [setCurrent] with the agent Guest, who is in neither list, the
    identifier ["guest"] matches the current agent; [update "guest"] with a
    new name finds no one, leaves the store as it was, and [current] does
    not show the new name. *)
Lemma update_skips_agent_only_in_current :
  (exists c,
     current (setCurrent (ByValue Examples.guest) Examples.registry) = Some c /\
     id c = "guest") /\
  pget Fname (Examples.rename "Visitor") = Some "Visitor" /\
  update "guest" (Examples.rename "Visitor")
    (setCurrent (ByValue Examples.guest) Examples.registry)
    = Done (setCurrent (ByValue Examples.guest) Examples.registry) /\
  ~ (exists s' c',
       update "guest" (Examples.rename "Visitor")
         (setCurrent (ByValue Examples.guest) Examples.registry) = Done s' /\
       current s' = Some c' /\
       get Fname c' = "Visitor").
Proof.
  split; [ exists Examples.guest; split; reflexivity | ].
  split; [ reflexivity | ]. split; [ reflexivity | ].
  intros [s' [c' [Hrun [Hcur Hname]]]].
  cbv in Hrun. injection Hrun as <-.
  cbv in Hcur. injection Hcur as <-.
  discriminate Hname.
Qed.

End AgentRegistry.

(** ** The configuration store *)
Section ConfigStore.
Import Stores.

(** C8: [setProvider] sets [provider] and leaves [localEndpoint] and
    [localModelId] as they were, so after any two switches the endpoint and
    the model identifier are still the configured ones, and switching back
    to the provider one started from restores the whole store. *)
Theorem setProvider_frame (p q : ModelProvider) (c : Config) :
  provider (setProvider p c) = p /\
  localEndpoint (setProvider p c) = localEndpoint c /\
  localModelId (setProvider p c) = localModelId c /\
  localEndpoint (setProvider q (setProvider p c)) = localEndpoint c /\
  localModelId (setProvider q (setProvider p c)) = localModelId c /\
  setProvider (provider c) (setProvider p c) = c.
Proof.
  destruct c. repeat split.
Qed.

End ConfigStore.

(** ** The dispatcher *)
Section Dispatcher.
Import Stores Dispatch.

Lemma trimEnd_empty (s : string) :
  Js.trimEnd s = EmptyString <-> Js.allWhiteSpace s = true.
Proof.
  induction s as [ | c r IH ]; simpl.
  - tauto.
  - destruct (Js.trimEnd r) eqn:E.
    + destruct (Js.isWhiteSpace c); simpl.
      * rewrite <- IH. tauto.
      * split; discriminate.
    + split; [ discriminate | ].
      intros H. apply andb_true_iff in H. destruct H as [_ H].
      apply IH in H. discriminate.
Qed.

Lemma trimStart_allWhiteSpace (s : string) :
  Js.allWhiteSpace (Js.trimStart s) = Js.allWhiteSpace s.
Proof.
  induction s as [ | c r IH ]; simpl; [ reflexivity | ].
  destruct (Js.isWhiteSpace c) eqn:E; simpl; [ exact IH | ].
  rewrite E. reflexivity.
Qed.

(** [!s.trim()] holds exactly of the strings made of white space only. *)
Lemma trim_falsy (s : string) :
  negb (Js.truthy (Js.trim s)) = Js.allWhiteSpace s.
Proof.
  unfold Js.trim. rewrite <- trimStart_allWhiteSpace.
  destruct (Js.trimEnd (Js.trimStart s)) eqn:E; simpl.
  - symmetry. now apply trimEnd_empty.
  - symmetry. apply not_true_is_false. intros H.
    apply trimEnd_empty in H. congruence.
Qed.

Lemma rejected_spec (w : World) :
  rejected w = true <->
  (Js.allWhiteSpace (input w) = true /\ w_attachments w = []) \/ loading w = true.
Proof.
  unfold rejected. rewrite trim_falsy, orb_true_iff, andb_true_iff.
  rewrite Nat.eqb_eq, length_zero_iff_nil. tauto.
Qed.

(** Unfolding one dispatch: the monad's operations and the setters go, the
    projections of the worlds they build are computed. *)
Ltac run_dispatch :=
  cbv beta iota zeta delta
    [sendMessage cloudBranch localBranch bind ret get modify throw await
     tryCatchFinally Dispatch.addChatMessage setInput setAttachments
     setLoading preventDefault record consoleError userMessage failure
     withHistory];
  cbn [w_user w_config w_ui input loading w_attachments defaultPrevented
       calls console attachments role text chatMessages isCodingMode
       Stores.addChatMessage].

Lemma rejected_preventDefault (w : World) (e : bool) :
  rejected
    {| w_user := w_user w; w_config := w_config w; w_ui := w_ui w;
       input := input w; loading := loading w;
       w_attachments := w_attachments w;
       defaultPrevented := defaultPrevented w || e;
       calls := calls w; console := console w |}
  = rejected w.
Proof. reflexivity. Qed.

(** Closing the goals about the world a dispatch ends in. *)
Ltac finish_dispatch :=
  cbn [w_user w_config w_ui input loading w_attachments defaultPrevented
       calls console attachments role text chatMessages isCodingMode
       Stores.addChatMessage];
  repeat rewrite <- app_assoc; cbn [app];
  repeat split; try reflexivity.

(** C2: a dispatch that passes the guard returns normally on every path:
    it never throws to its caller, it ends with [loading] false, and it has
    appended the user's message and then one message of role [model]; when
    something failed on the way (the SDK's constructor, the generation
    call, the fetch, the JSON body, a [null] body), that message is the
    network-error notice and the error went to the console. *)
Theorem sendMessage_releases_and_reports (env : Env) (e : bool) (w : World) :
  rejected w = false ->
  exists w' reply,
    sendMessage env e w = (inr tt, w') /\
    loading w' = false /\
    chatMessages (w_ui w')
      = chatMessages (w_ui w) ++ [userMessage env w; reply] /\
    role reply = model /\
    match failure env w with
    | Some err =>
        text reply = JStr (networkErrorText (provider (w_config w))) /\
        console w' = console w ++ [err]
    | None => console w' = console w
    end.
Proof.
  intros Hpass. run_dispatch. rewrite rejected_preventDefault, Hpass.
  destruct (provider (w_config w)).
  - destruct (newGoogleGenAI env) as [err | ].
    + do 2 eexists. split; [ reflexivity | ]. finish_dispatch.
    + destruct (generateContent env _) as [err | response].
      * do 2 eexists. split; [ reflexivity | ]. finish_dispatch.
      * do 2 eexists. split; [ reflexivity | ]. finish_dispatch.
  - destruct (fetch env _ _) as [err | response].
    + do 2 eexists. split; [ reflexivity | ]. finish_dispatch.
    + destruct (json response) as [err | data].
      * do 2 eexists. split; [ reflexivity | ]. finish_dispatch.
      * destruct (Json.choiceContent data) as [found | ].
        -- do 2 eexists. split; [ reflexivity | ]. finish_dispatch.
        -- do 2 eexists. split; [ reflexivity | ]. finish_dispatch.
Qed.

(** With the SDK's call failing, a cloud dispatch of ["hello again"] ends
    normally, not loading, with the API-key notice in the log. *)
Lemma sendMessage_releases_and_reports_witness :
  rejected (Examples.world gemini "http://localhost:11434/v1" "hello again" [])
    = false /\
  exists w' reply,
    sendMessage Examples.cloudDown true
      (Examples.world gemini "http://localhost:11434/v1" "hello again" [])
      = (inr tt, w') /\
    loading w' = false /\
    role reply = model /\
    text reply
      = JStr "Network Error: Verify that your API Key is valid." /\
    nth_error (chatMessages (w_ui w')) 3 = Some reply.
Proof.
  split; [ reflexivity | ].
  destruct (@sendMessage_releases_and_reports Examples.cloudDown true
              (Examples.world gemini "http://localhost:11434/v1" "hello again" [])
              eq_refl)
    as [w' [reply [Hrun [Hload [Hlog [Hrole Hfail]]]]]].
  exists w', reply. split; [ exact Hrun | ]. split; [ exact Hload | ].
  split; [ exact Hrole | ]. split.
  - exact (proj1 Hfail).
  - rewrite Hlog. reflexivity.
Defined.

(** C4: when the typed text is empty or white space only and nothing is
    attached, or when a dispatch is in flight, [sendMessage] returns at
    once: no call goes out, no message is appended (the UI store is what it
    was), the input, the attachments and the loading flag are what they
    were, and nothing is logged. *)
Theorem sendMessage_rejected_noop (env : Env) (e : bool) (w : World) :
  (Js.allWhiteSpace (input w) = true /\ w_attachments w = []) \/
  loading w = true ->
  exists w',
    sendMessage env e w = (inr tt, w') /\
    calls w' = calls w /\
    chatMessages (w_ui w') = chatMessages (w_ui w) /\
    w_ui w' = w_ui w /\
    input w' = input w /\
    w_attachments w' = w_attachments w /\
    loading w' = loading w /\
    console w' = console w.
Proof.
  intros H. apply rejected_spec in H.
  run_dispatch. rewrite rejected_preventDefault, H.
  eexists. split; [ reflexivity | ]. finish_dispatch.
Qed.

(** A second Enter while the first dispatch is in flight. *)
Lemma sendMessage_rejected_noop_witness :
  loading Examples.busyWorld = true /\
  exists w',
    sendMessage (Examples.mockedLocal Examples.hiData) false Examples.busyWorld
      = (inr tt, w') /\
    calls w' = [] /\
    chatMessages (w_ui w') = [Examples.greeting] /\
    input w' = "are you there?" /\
    loading w' = true.
Proof.
  split; [ reflexivity | ].
  destruct (@sendMessage_rejected_noop (Examples.mockedLocal Examples.hiData)
              false Examples.busyWorld (or_intror eq_refl))
    as [w' [Hrun [Hcalls [Hlog [_ [Hin [_ [Hload _]]]]]]]].
  exists w'. split; [ exact Hrun | ]. split; [ exact Hcalls | ].
  split; [ exact Hlog | ]. split; [ exact Hin | exact Hload ].
Defined.

(** White-space-only text with nothing attached is rejected too. *)
Example sendMessage_blank_rejected :
  rejected (Examples.world local "http://localhost:11434/v1"
              (" " ++ LF ++ "  ") []) = true.
Proof. reflexivity. Qed.

(** *** The local branch *)

Lemma stripTrailingSlash_slash (s : string) :
  Js.stripTrailingSlash (s ++ "/") = s.
Proof.
  induction s as [ | c r IH ]; [ reflexivity | ].
  change (String c r ++ "/")%string with (String c (r ++ "/")%string).
  simpl. rewrite IH. destruct r; reflexivity.
Qed.

(** C5: with the local provider, the endpoint [http://localhost:11434/v1/]
    and an HTTP layer that answers [{choices:[{message:{content:"hi"}}]}],
    a dispatch that passes the guard makes one call, a POST to
    [http://localhost:11434/v1/chat/completions], and appends after the
    user's message a [model] message whose text is ["hi"]. *)
Theorem local_dispatch_url_and_reply (env : Env) (e : bool) (w : World) :
  provider (w_config w) = local ->
  localEndpoint (w_config w) = "http://localhost:11434/v1/" ->
  rejected w = false ->
  (forall url init, fetch env url init = inr {| json := inr Examples.hiData |}) ->
  exists w' init,
    sendMessage env e w = (inr tt, w') /\
    calls w'
      = calls w ++ [LocalCall "http://localhost:11434/v1/chat/completions" init] /\
    method init = "POST" /\
    chatMessages (w_ui w')
      = chatMessages (w_ui w)
        ++ [userMessage env w;
            {| role := model; text := JStr "hi"; timestamp := repliedAt env;
               attachments := None; groundingChunks := None |}].
Proof.
  intros Hlocal Hend Hpass Hfetch. run_dispatch.
  rewrite rejected_preventDefault, Hpass, Hlocal, Hend, Hfetch.
  do 2 eexists. split; [ reflexivity | ]. finish_dispatch.
Qed.

Lemma local_dispatch_url_and_reply_witness :
  exists w' init,
    sendMessage (Examples.mockedLocal Examples.hiData) true
      (Examples.world local "http://localhost:11434/v1/" "say hi" [])
      = (inr tt, w') /\
    calls w'
      = [LocalCall "http://localhost:11434/v1/chat/completions" init] /\
    nth_error (chatMessages (w_ui w')) 3
      = Some {| role := model; text := JStr "hi"; timestamp := 2000%Z;
                attachments := None; groundingChunks := None |}.
Proof.
  destruct (@local_dispatch_url_and_reply (Examples.mockedLocal Examples.hiData)
              true
              (Examples.world local "http://localhost:11434/v1/" "say hi" [])
              eq_refl eq_refl eq_refl (fun _ _ => eq_refl))
    as [w' [init [Hrun [Hcalls [_ Hlog]]]]].
  exists w', init. split; [ exact Hrun | ]. split; [ exact Hcalls | ].
  rewrite Hlog. reflexivity.
Defined.

(** The messages of a completion body, element by element. *)
Lemma completionBody_messages_nth (modelId si : string)
  (history : list ChatMessage) (typed : string) :
  let ms := messages (completionBody modelId si history typed) in
  List.length ms = S (S (List.length history)) /\
  nth_error ms 0 = Some {| m_role := "system"; content := JStr si |} /\
  (forall n m, nth_error history n = Some m ->
     nth_error ms (S n)
       = Some {| m_role := match role m with
                           | user => "user"
                           | model => "assistant"
                           end;
                 content := text m |}) /\
  nth_error ms (S (List.length history))
    = Some {| m_role := "user"; content := JStr typed |}.
Proof.
  cbn [completionBody messages]. repeat split.
  - cbn [List.length]. rewrite length_app, length_map. cbn [List.length]. lia.
  - intros n m Hn. cbn [nth_error].
    rewrite nth_error_app1 by (rewrite length_map; apply nth_error_Some; congruence).
    rewrite nth_error_map, Hn. destruct m as [[ | ] ? ? ? ?]; reflexivity.
  - cbn [nth_error].
    rewrite nth_error_app2 by (rewrite length_map; lia).
    rewrite length_map, Nat.sub_diag. reflexivity.
Qed.

(** C6: a local dispatch that passes the guard makes one call whose body
    has [model] equal to the configured model identifier, [temperature]
    equal to the double 0.7, and as [messages] the system instruction with
    role [system], then every message of the log in order, a [user] one as
    [user] and a [model] one as [assistant], each with its stored text as
    content, then the typed text with role [user]. *)
Theorem local_request_body (env : Env) (e : bool) (w : World) :
  provider (w_config w) = local ->
  rejected w = false ->
  exists w' url init,
    sendMessage env e w = (inr tt, w') /\
    calls w' = calls w ++ [LocalCall url init] /\
    b_model (body init) = localModelId (w_config w) /\
    temperature (body init) = (7 / 10)%float /\
    messages (body init)
      = {| m_role := "system";
           content := JStr (systemInstructionOf (isCodingMode (w_ui w))
                              (name (w_user w))) |}
        :: map (fun m => {| m_role := match role m with
                                      | user => "user"
                                      | model => "assistant"
                                      end;
                            content := text m |})
             (chatMessages (w_ui w))
        ++ [ {| m_role := "user"; content := JStr (input w) |} ].
Proof.
  intros Hlocal Hpass. run_dispatch.
  rewrite rejected_preventDefault, Hpass, Hlocal.
  destruct (fetch env _ _) as [err | response];
    [ | destruct (json response) as [err | data];
        [ | destruct (Json.choiceContent data) as [found | ] ] ];
    do 3 eexists; (split; [ reflexivity | ]); finish_dispatch.
Qed.

Lemma local_request_body_witness :
  exists w' url init,
    sendMessage (Examples.mockedLocal Examples.hiData) false
      (Examples.world local "http://localhost:8000/v1" "and now?" [])
      = (inr tt, w') /\
    calls w' = [LocalCall url init] /\
    b_model (body init) = "llama3" /\
    messages (body init)
      = [ {| m_role := "system";
             content := JStr "You are a helpful personal assistant helping Ada." |};
          {| m_role := "user"; content := JStr "hello" |};
          {| m_role := "assistant"; content := JStr "Hello, how can I help?" |};
          {| m_role := "user"; content := JStr "and now?" |} ].
Proof.
  destruct (@local_request_body (Examples.mockedLocal Examples.hiData) false
              (Examples.world local "http://localhost:8000/v1" "and now?" [])
              eq_refl eq_refl)
    as [w' [url [init [Hrun [Hcalls [Hmodel [_ Hmsgs]]]]]]].
  exists w', url, init. split; [ exact Hrun | ]. split; [ exact Hcalls | ].
  split; [ exact Hmodel | exact Hmsgs ].
Defined.

(** C10: when the local server's reply has a [choices[0].message.content]
    that is there but falsy (the empty string, [0], [false], [null]), the
    [model] message appended carries the text ['Local engine error.'], not
    the falsy value. *)
Theorem local_falsy_content_placeholder (env : Env) (e : bool) (w : World)
  (response : Response) (data v : value) :
  provider (w_config w) = local ->
  rejected w = false ->
  fetch env (completionsUrl (localEndpoint (w_config w)))
    (completionInit
       (completionBody (localModelId (w_config w))
          (systemInstructionOf (isCodingMode (w_ui w)) (name (w_user w)))
          (chatMessages (w_ui w)) (input w)))
    = inr response ->
  json response = inr data ->
  Json.choiceContent data = Some (Some v) ->
  Json.truthy v = false ->
  exists w',
    sendMessage env e w = (inr tt, w') /\
    chatMessages (w_ui w')
      = chatMessages (w_ui w)
        ++ [userMessage env w;
            {| role := model; text := JStr "Local engine error.";
               timestamp := repliedAt env;
               attachments := None; groundingChunks := None |}].
Proof.
  intros Hlocal Hpass Hfetch Hjson Hfound Hfalsy. run_dispatch.
  rewrite rejected_preventDefault, Hpass, Hlocal, Hfetch, Hjson, Hfound.
  unfold Json.orPlaceholder. rewrite Hfalsy.
  eexists. split; [ reflexivity | ]. finish_dispatch.
Qed.

(** The reply [{choices:[{message:{content:""}}]}]. *)
Lemma local_falsy_content_placeholder_witness :
  Json.choiceContent (Examples.completion (JStr "")) = Some (Some (JStr "")) /\
  Json.truthy (JStr "") = false /\
  exists w',
    sendMessage (Examples.mockedLocal (Examples.completion (JStr ""))) true
      (Examples.world local "http://localhost:11434/v1" "anyone?" [])
      = (inr tt, w') /\
    nth_error (chatMessages (w_ui w')) 3
      = Some {| role := model; text := JStr "Local engine error.";
                timestamp := 2000%Z;
                attachments := None; groundingChunks := None |}.
Proof.
  split; [ reflexivity | ]. split; [ reflexivity | ].
  destruct (@local_falsy_content_placeholder
              (Examples.mockedLocal (Examples.completion (JStr ""))) true
              (Examples.world local "http://localhost:11434/v1" "anyone?" [])
              {| json := inr (Examples.completion (JStr "")) |}
              (Examples.completion (JStr "")) (JStr "")
              eq_refl eq_refl eq_refl eq_refl eq_refl eq_refl)
    as [w' [Hrun Hlog]].
  exists w'. split; [ exact Hrun | ]. rewrite Hlog. reflexivity.
Defined.

(** The falsy values a reply can carry, and where [content] is read. *)
Lemma truthy_false_iff (v : value) :
  Json.truthy v = false <->
  v = JNull \/ v = JBool false \/ v = JStr "" \/
  exists f, v = JNum f /\ (PrimFloat.is_zero f || PrimFloat.is_nan f) = true.
Proof.
  split.
  - destruct v as [ | [ | ] | f | [ | c r ] | items | props ]; simpl;
      try discriminate; auto.
    intros H. apply negb_false_iff in H. right; right; right.
    exists f. split; [ reflexivity | exact H ].
  - intros [-> | [-> | [-> | [f [-> H]]]]]; simpl; try reflexivity.
    now rewrite H.
Qed.

Lemma choiceContent_completion (c : value) :
  Json.choiceContent (Examples.completion c) = Some (Some c).
Proof. reflexivity. Qed.

Example falsy_zero : Json.truthy (JNum 0%float) = false.
Proof. reflexivity. Qed.

Example falsy_negative_zero : Json.truthy (JNum (-0)%float) = false.
Proof. reflexivity. Qed.

Example truthy_number : Json.orPlaceholder (Some (JNum 5%float)) = JNum 5%float.
Proof. reflexivity. Qed.

Example absent_content :
  Json.orPlaceholder
    (match Json.choiceContent (JObj [("choices", JArr [])]) with
     | Some found => found
     | None => None
     end) = JStr "Local engine error.".
Proof. reflexivity. Qed.

(** *** The cloud branch *)

Lemma buildParts_image_then_file (typed : string) (img other : Attachment) :
  Js.startsWith "image/" (att_type img) = true ->
  Js.startsWith "image/" (att_type other) = false ->
  buildParts typed [img; other]
    = [TextPart (typed ++ LF ++ "[Attached File: " ++ att_name other ++ "]");
       InlineData (att_type img) (att_data img)] /\
  buildParts typed [other; img]
    = [TextPart (typed ++ LF ++ "[Attached File: " ++ att_name other ++ "]");
       InlineData (att_type img) (att_data img)].
Proof.
  intros Himg Hother. unfold buildParts, pushAttachment. cbn [fold_left].
  rewrite Himg, Hother. split; reflexivity.
Qed.

(** C7: in cloud mode, with the text ["describe these"], one attachment of
    an image type and one of another type (in either order) and nothing in
    flight, the request that goes out (none does when the SDK's constructor
    throws) has one [user] content whose parts are the text part,
    ["describe these"] followed by a line [[Attached File: <name>]] with
    the other file's name, and one inline part with the image's mime type
    and base64 data; nothing of the other file's data is in it. *)
Theorem cloud_parts_image_and_file (env : Env) (e : bool) (w : World)
  (img other : Attachment) :
  provider (w_config w) = gemini ->
  loading w = false ->
  input w = "describe these" ->
  Js.startsWith "image/" (att_type img) = true ->
  Js.startsWith "image/" (att_type other) = false ->
  w_attachments w = [img; other] \/ w_attachments w = [other; img] ->
  exists w',
    sendMessage env e w = (inr tt, w') /\
    calls w'
      = calls w
        ++ match newGoogleGenAI env with
           | Some _ => []
           | None =>
               [CloudCall
                  {| g_model := "gemini-3-pro-preview";
                     contents :=
                       [ {| c_role := "user";
                            parts :=
                              [TextPart ("describe these" ++ LF
                                         ++ "[Attached File: "
                                         ++ att_name other ++ "]");
                               InlineData (att_type img) (att_data img)] |} ];
                     config :=
                       {| systemInstruction :=
                            systemInstructionOf (isCodingMode (w_ui w))
                              (name (w_user w));
                          tools := if isCodingMode (w_ui w)
                                   then [googleSearch] else [] |} |}]
           end.
Proof.
  intros Hcloud Hidle Htext Himg Hother Hatts.
  destruct (buildParts_image_then_file "describe these" img other Himg Hother)
    as [Hio Hoi].
  assert (Hparts : buildParts (input w) (w_attachments w)
            = [TextPart ("describe these" ++ LF ++ "[Attached File: "
                         ++ att_name other ++ "]");
               InlineData (att_type img) (att_data img)])
    by (rewrite Htext; destruct Hatts as [-> | ->]; assumption).
  assert (Hpass : rejected w = false).
  { unfold rejected. rewrite Htext, Hidle.
    destruct Hatts as [-> | ->]; reflexivity. }
  run_dispatch. rewrite rejected_preventDefault, Hpass, Hcloud, Hparts.
  destruct (newGoogleGenAI env) as [err | ].
  - eexists. split; [ reflexivity | ]. finish_dispatch.
    now rewrite app_nil_r.
  - destruct (generateContent env _) as [err | response];
      eexists; (split; [ reflexivity | ]); finish_dispatch.
Qed.

(** A PNG and a PDF: the PNG goes inline, the PDF is named in the text. *)
Lemma cloud_parts_image_and_file_witness :
  exists w',
    sendMessage Examples.cloudDown true
      (Examples.world gemini "http://localhost:11434/v1" "describe these"
         [Examples.photo; Examples.notes])
      = (inr tt, w') /\
    calls w'
      = [CloudCall
           {| g_model := "gemini-3-pro-preview";
              contents :=
                [ {| c_role := "user";
                     parts :=
                       [TextPart ("describe these" ++ LF
                                  ++ "[Attached File: notes.pdf]");
                        InlineData "image/png" "iVBORw0KGgo="] |} ];
              config :=
                {| systemInstruction :=
                     "You are a helpful personal assistant helping Ada.";
                   tools := [] |} |}].
Proof.
  exact (@cloud_parts_image_and_file Examples.cloudDown true
           (Examples.world gemini "http://localhost:11434/v1" "describe these"
              [Examples.photo; Examples.notes])
           Examples.photo Examples.notes
           eq_refl eq_refl eq_refl eq_refl eq_refl (or_introl eq_refl)).
Defined.

(** C9: in cloud mode the request of a dispatch that passes the guard has
    as [contents] exactly one entry, of role [user], whose parts are built
    from the typed text and the attachments; the request is the same
    whatever the message log holds (none goes out when the SDK's
    constructor throws). *)
Theorem cloud_request_ignores_history (env : Env) (e : bool) (w : World) :
  provider (w_config w) = gemini ->
  rejected w = false ->
  let params :=
    cloudParams (buildParts (input w) (w_attachments w))
      (systemInstructionOf (isCodingMode (w_ui w)) (name (w_user w)))
      (isCodingMode (w_ui w)) in
  contents params
    = [ {| c_role := "user";
           parts := buildParts (input w) (w_attachments w) |} ] /\
  (exists w',
     sendMessage env e w = (inr tt, w') /\
     calls w'
       = calls w ++ match newGoogleGenAI env with
                    | Some _ => []
                    | None => [CloudCall params]
                    end) /\
  (forall history, exists w',
     sendMessage env e (withHistory history w) = (inr tt, w') /\
     calls w'
       = calls w ++ match newGoogleGenAI env with
                    | Some _ => []
                    | None => [CloudCall params]
                    end).
Proof.
  intros Hcloud Hpass params. split; [ reflexivity | ]. subst params. split.
  - run_dispatch. rewrite rejected_preventDefault, Hpass, Hcloud.
    destruct (newGoogleGenAI env) as [err | ].
    + eexists. split; [ reflexivity | ]. finish_dispatch. now rewrite app_nil_r.
    + destruct (generateContent env _) as [err | response];
        eexists; (split; [ reflexivity | ]); finish_dispatch.
  - intros history. run_dispatch.
    change (rejected _) with (rejected w). rewrite Hpass, Hcloud.
    destruct (newGoogleGenAI env) as [err | ].
    + eexists. split; [ reflexivity | ]. finish_dispatch. now rewrite app_nil_r.
    + destruct (generateContent env _) as [err | response];
        eexists; (split; [ reflexivity | ]); finish_dispatch.
Qed.

(** The request for ["what next?"] is the same after the two-message log
    and after an empty one. *)
Lemma cloud_request_ignores_history_witness :
  exists w1 w2,
    sendMessage Examples.cloudDown false
      (Examples.world gemini "http://localhost:11434/v1" "what next?" [])
      = (inr tt, w1) /\
    sendMessage Examples.cloudDown false
      (withHistory []
         (Examples.world gemini "http://localhost:11434/v1" "what next?" []))
      = (inr tt, w2) /\
    calls w1 = calls w2 /\
    calls w1
      = [CloudCall
           {| g_model := "gemini-3-pro-preview";
              contents :=
                [ {| c_role := "user"; parts := [TextPart "what next?"] |} ];
              config :=
                {| systemInstruction :=
                     "You are a helpful personal assistant helping Ada.";
                   tools := [] |} |}].
Proof.
  destruct (@cloud_request_ignores_history Examples.cloudDown false
              (Examples.world gemini "http://localhost:11434/v1" "what next?" [])
              eq_refl eq_refl)
    as [_ [[w1 [Hrun1 Hcalls1]] Hany]].
  destruct (Hany []) as [w2 [Hrun2 Hcalls2]].
  exists w1, w2. split; [ exact Hrun1 | ]. split; [ exact Hrun2 | ].
  split; [ now rewrite Hcalls1, Hcalls2 | exact Hcalls1 ].
Defined.

End Dispatcher.

(** ** More on the agent registry *)
Section AgentRegistryOperations.
Import AgentStore StoreActions.

Lemma find_hasId_app (i : string) (l1 l2 : list Agent) :
  find (hasId i) (l1 ++ l2)
  = match find (hasId i) l1 with
    | Some a => Some a
    | None => find (hasId i) l2
    end.
Proof.
  induction l1 as [ | a l1 IH ]; simpl; [ reflexivity | ].
  destruct (hasId i a); [ reflexivity | exact IH ].
Qed.

Lemma find_hasId_none (i : string) (l : list Agent) :
  (forall a, In a l -> id a <> i) -> find (hasId i) l = None.
Proof.
  intros H. destruct (find (hasId i) l) eqn:E; [ | reflexivity ].
  exfalso. apply (H a); [ eapply find_some; eauto | eapply find_hasId_id; eauto ].
Qed.

(** X1: [addAgent agent] makes [agent] current, appends it to the personal
    list and leaves the presets alone; its identifier then resolves, to an
    agent carrying it; and when no personal agent had that identifier
    before, it resolves to [agent] itself, also when a preset carries the
    same identifier, so that [setCurrent] by that identifier keeps [agent]
    current. *)
Theorem addAgent_then_lookup (agent : Agent) (s : State) :
  current (addAgent agent s) = Some agent /\
  availablePersonal (addAgent agent s) = availablePersonal s ++ [agent] /\
  availablePresets (addAgent agent s) = availablePresets s /\
  (exists found,
     getAgentById (id agent) (addAgent agent s) = Some found /\
     id found = id agent) /\
  ((forall a, In a (availablePersonal s) -> id a <> id agent) ->
   getAgentById (id agent) (addAgent agent s) = Some agent /\
   current (setCurrent (ById (id agent)) (addAgent agent s)) = Some agent).
Proof.
  assert (Hself : hasId (id agent) agent = true)
    by (unfold hasId; apply String.eqb_refl).
  repeat split.
  - unfold getAgentById. cbn [addAgent availablePersonal availablePresets].
    rewrite find_hasId_app.
    destruct (find (hasId (id agent)) (availablePersonal s)) as [a | ] eqn:E.
    + exists a. split; [ reflexivity | eapply find_hasId_id; eauto ].
    + exists agent. cbn [find]. rewrite Hself. split; reflexivity.
  - unfold getAgentById. cbn [addAgent availablePersonal availablePresets].
    rewrite find_hasId_app, (@find_hasId_none _ _ H).
    cbn [find]. rewrite Hself. reflexivity.
  - cbn [setCurrent current].
    unfold getAgentById. cbn [addAgent availablePersonal availablePresets].
    rewrite find_hasId_app, (@find_hasId_none _ _ H).
    cbn [find]. rewrite Hself. reflexivity.
Qed.

(** X2: [update] with an identifier that no agent carries changes nothing
    and does not throw, whatever [current] is. *)
Theorem update_unknown_noop (agentId : string) (adjustments : PartialAgent)
  (s : State) :
  (forall a, In a (availablePersonal s) -> id a <> agentId) ->
  (forall a, In a (availablePresets s) -> id a <> agentId) ->
  update agentId adjustments s = Done s.
Proof.
  intros Hp Hq. unfold update.
  now rewrite (@getAgentById_unknown _ _ Hp Hq).
Qed.

Lemma update_unknown_noop_witness :
  update "nobody" (Examples.rename "X")
    (setCurrent (ById "nonexistent-id") Examples.registry)
  = Done (setCurrent (ById "nonexistent-id") Examples.registry).
Proof.
  apply update_unknown_noop.
  - intros a [].
  - intros a [<- | [<- | []]]; discriminate.
Defined.

(** X3: a successful [update] keeps the length of both lists, and leaves
    every agent with another identifier where it was, [current] too. *)
Theorem update_frame (agentId : string) (adjustments : PartialAgent)
  (s s' : State) :
  update agentId adjustments s = Done s' ->
  List.length (availablePresets s') = List.length (availablePresets s) /\
  List.length (availablePersonal s') = List.length (availablePersonal s) /\
  (forall n a, nth_error (availablePresets s) n = Some a -> id a <> agentId ->
               nth_error (availablePresets s') n = Some a) /\
  (forall n a, nth_error (availablePersonal s) n = Some a -> id a <> agentId ->
               nth_error (availablePersonal s') n = Some a) /\
  (forall c, current s = Some c -> id c <> agentId -> current s' = Some c).
Proof.
  unfold update.
  destruct (getAgentById agentId s) as [agent | ].
  2: { intros [= <-]. repeat split; auto. }
  destruct (current s) as [c | ]; [ | discriminate ].
  intros [= <-]. cbn [availablePresets availablePersonal current].
  assert (Hkeep : forall a, id a <> agentId -> hasId agentId a = false)
    by (intros a Ha; unfold hasId; now apply String.eqb_neq).
  repeat split.
  - apply length_map.
  - apply length_map.
  - intros n a Hn Ha. rewrite (@replaceById_nth _ _ _ _ _ Hn), (Hkeep _ Ha).
    reflexivity.
  - intros n a Hn Ha. rewrite (@replaceById_nth _ _ _ _ _ Hn), (Hkeep _ Ha).
    reflexivity.
  - intros c0 [= <-] Hc. now rewrite (Hkeep _ Hc).
Qed.

Lemma update_frame_witness :
  exists s',
    update "paul" (Examples.rename "Pablo") Examples.registry = Done s' /\
    List.length (availablePresets s') = 2 /\
    nth_error (availablePresets s') 1 = Some Examples.charlotte.
Proof.
  eexists. split; [ reflexivity | ].
  destruct (@update_frame "paul" (Examples.rename "Pablo") Examples.registry
              _ eq_refl) as [Hlen [_ [Hpre _]]].
  split; [ exact Hlen | ].
  apply (Hpre 1 Examples.charlotte); [ reflexivity | discriminate ].
Defined.

(** A personal agent named like the preset Paul shadows the preset. *)
Lemma addAgent_then_lookup_witness :
  (forall a, In a (availablePersonal Examples.registry) ->
             id a <> id Examples.paulCopy) /\
  getAgentById "paul" (addAgent Examples.paulCopy Examples.registry)
    = Some Examples.paulCopy /\
  current (setCurrent (ById "paul")
             (addAgent Examples.paulCopy Examples.registry))
    = Some Examples.paulCopy.
Proof.
  assert (H : forall a, In a (availablePersonal Examples.registry) ->
                        id a <> id Examples.paulCopy) by (intros a []).
  split; [ exact H | ].
  exact (proj2 (proj2 (proj2 (proj2
           (addAgent_then_lookup Examples.paulCopy Examples.registry)))) H).
Defined.

Lemma find_replaceById_same (i : string) (u : Agent) (l : list Agent) :
  hasId i u = true ->
  find (hasId i) (replaceById i u l)
  = match find (hasId i) l with
    | Some _ => Some u
    | None => None
    end.
Proof.
  intros Hu. induction l as [ | a l IH ]; [ reflexivity | ].
  unfold replaceById in *. cbn [map find].
  destruct (hasId i a) eqn:Ha.
  - rewrite Hu. reflexivity.
  - rewrite Ha. exact IH.
Qed.

Lemma find_replaceById_gone (i : string) (u : Agent) (l : list Agent) :
  hasId i u = false ->
  find (hasId i) (replaceById i u l) = None.
Proof.
  intros Hu. induction l as [ | a l IH ]; [ reflexivity | ].
  unfold replaceById in *. cbn [map find].
  destruct (hasId i a) eqn:Ha.
  - rewrite Hu. exact IH.
  - rewrite Ha. exact IH.
Qed.

Lemma find_replaceById_other (i j : string) (u : Agent) (l : list Agent) :
  j <> i -> id u <> j ->
  find (hasId j) (replaceById i u l) = find (hasId j) l.
Proof.
  intros Hji Hu. induction l as [ | a l IH ]; [ reflexivity | ].
  unfold replaceById in *. cbn [map find].
  destruct (hasId i a) eqn:Ha.
  - assert (Hja : hasId j a = false).
    { unfold hasId in *. apply String.eqb_eq in Ha.
      apply String.eqb_neq. congruence. }
    assert (Hju : hasId j u = false)
      by (unfold hasId; now apply String.eqb_neq).
    rewrite Hja, Hju. exact IH.
  - destruct (hasId j a); [ reflexivity | exact IH ].
Qed.

Lemma replaceById_twice (i : string) (u : Agent) (l : list Agent) :
  hasId i u = true ->
  replaceById i u (replaceById i u l) = replaceById i u l.
Proof.
  intros Hu. unfold replaceById. rewrite map_map. apply map_ext.
  intros a. destruct (hasId i a) eqn:Ha; [ now rewrite Hu | now rewrite Ha ].
Qed.

Lemma replaceById_absent (i : string) (u : Agent) (l : list Agent) :
  find (hasId i) l = None -> replaceById i u l = l.
Proof.
  intros H. unfold replaceById. rewrite <- (map_id l) at 2.
  apply map_ext_in. intros a Ha.
  now rewrite (find_none _ _ H a Ha).
Qed.

Lemma spread_twice (agent : Agent) (adj : PartialAgent) :
  spread (spread agent adj) adj = spread agent adj.
Proof.
  destruct adj as [[?|] [?|] [?|] [?|] [?|]]; reflexivity.
Qed.

(** X4: [update] is idempotent: applying the same adjustments to the same
    identifier again changes nothing more (and does not throw), also when
    the adjustments change the identifier itself. *)
Theorem update_idempotent (agentId : string) (adjustments : PartialAgent)
  (s s' : State) :
  update agentId adjustments s = Done s' ->
  update agentId adjustments s' = Done s'.
Proof.
  unfold update at 1.
  destruct (getAgentById agentId s) as [agent | ] eqn:Hfind.
  2: { intros [= <-]. unfold update. now rewrite Hfind. }
  destruct (current s) as [c | ]; [ | discriminate ].
  intros [= <-]. set (u := spread agent adjustments).
  unfold update, getAgentById.
  cbn [availablePresets availablePersonal current].
  destruct (hasId agentId u) eqn:Hu.
  - rewrite !find_replaceById_same by exact Hu.
    unfold getAgentById in Hfind.
    assert (Hsame : spread u adjustments = u) by apply spread_twice.
    assert (Hcur : (if hasId agentId (if hasId agentId c then u else c)
                    then u else if hasId agentId c then u else c)
                   = (if hasId agentId c then u else c)).
    { destruct (hasId agentId c) eqn:Hc; [ now rewrite Hu | now rewrite Hc ]. }
    destruct (find (hasId agentId) (availablePersonal s)) as [a | ].
    + rewrite Hsame, !replaceById_twice, Hcur by exact Hu. reflexivity.
    + rewrite Hfind, Hsame, !replaceById_twice, Hcur by exact Hu. reflexivity.
  - rewrite !find_replaceById_gone by exact Hu. reflexivity.
Qed.

Lemma update_idempotent_witness :
  exists s',
    update "paul" (Examples.rename "Pablo") Examples.registryWithCopy = Done s' /\
    update "paul" (Examples.rename "Pablo") s' = Done s'.
Proof.
  eexists. split; [ reflexivity | ].
  apply (@update_idempotent "paul" (Examples.rename "Pablo")
           Examples.registryWithCopy).
  reflexivity.
Defined.

(** X5: when the adjustments give the agent another identifier, the old
    identifier resolves to nothing afterwards: every agent that carried it
    has been replaced, so a second [update] or a [setCurrent] by the old
    identifier finds no one. *)
Theorem update_rename_unlinks_old_id (agentId newId : string)
  (adjustments : PartialAgent) (s s' : State) (agent : Agent) :
  getAgentById agentId s = Some agent ->
  p_id adjustments = Some newId ->
  newId <> agentId ->
  update agentId adjustments s = Done s' ->
  getAgentById agentId s' = None /\
  current (setCurrent (ById agentId) s') = None.
Proof.
  intros Hfind Hid Hne. unfold update. rewrite Hfind.
  destruct (current s) as [c | ]; [ | discriminate ].
  intros [= <-].
  assert (Hu : hasId agentId (spread agent adjustments) = false).
  { unfold hasId, spread. cbn [id]. rewrite Hid. cbn [over].
    now apply String.eqb_neq. }
  assert (Hgone : getAgentById agentId
            {| current := Some (if hasId agentId c
                                then spread agent adjustments else c);
               availablePresets :=
                 replaceById agentId (spread agent adjustments)
                   (availablePresets s);
               availablePersonal :=
                 replaceById agentId (spread agent adjustments)
                   (availablePersonal s) |} = None).
  { unfold getAgentById. cbn [availablePresets availablePersonal].
    now rewrite !find_replaceById_gone by exact Hu. }
  split; [ exact Hgone | ]. cbn [setCurrent current]. exact Hgone.
Qed.

Lemma update_rename_unlinks_old_id_witness :
  exists s',
    update "paul" (Examples.reidentify "pablo") Examples.registry = Done s' /\
    getAgentById "paul" s' = None /\
    current (setCurrent (ById "paul") s') = None.
Proof.
  eexists. split; [ reflexivity | ].
  apply (@update_rename_unlinks_old_id "paul" "pablo"
           (Examples.reidentify "pablo") Examples.registry _ Examples.paul);
    try reflexivity.
  discriminate.
Defined.

(** X6: a successful [update] does not disturb the resolution of other
    identifiers: an identifier that is neither the updated one nor the one
    the adjustments give resolves to the same agent as before. *)
Theorem update_keeps_other_lookups (agentId other : string)
  (adjustments : PartialAgent) (s s' : State) :
  update agentId adjustments s = Done s' ->
  other <> agentId ->
  p_id adjustments <> Some other ->
  getAgentById other s' = getAgentById other s.
Proof.
  unfold update.
  destruct (getAgentById agentId s) as [agent | ] eqn:Hfind.
  2: { now intros [= <-]. }
  destruct (current s) as [c | ]; [ | discriminate ].
  intros [= <-] Hne Hadj.
  assert (Hu : id (spread agent adjustments) <> other).
  { unfold spread. cbn [id].
    destruct (p_id adjustments) as [i | ]; cbn [over].
    - congruence.
    - rewrite (getAgentById_id _ _ Hfind). congruence. }
  unfold getAgentById. cbn [availablePresets availablePersonal].
  now rewrite !find_replaceById_other by assumption.
Qed.

Lemma update_keeps_other_lookups_witness :
  exists s',
    update "paul" (Examples.reidentify "pablo") Examples.registryWithCopy
      = Done s' /\
    getAgentById "charlotte" s' = Some Examples.charlotte.
Proof.
  eexists. split; [ reflexivity | ].
  rewrite (@update_keeps_other_lookups "paul" "charlotte"
             (Examples.reidentify "pablo") Examples.registryWithCopy _ eq_refl);
    [ reflexivity | discriminate | discriminate ].
Defined.

(** X7: after [setCurrent] with an identifier that matches no agent, every
    [update] of an agent that does exist throws: it finds its agent and
    then reads [id] of the undefined [current]. *)
Theorem update_throws_after_unknown_setCurrent (unknown agentId : string)
  (adjustments : PartialAgent) (s : State) (agent : Agent) :
  getAgentById unknown s = None ->
  getAgentById agentId s = Some agent ->
  update agentId adjustments (setCurrent (ById unknown) s) = TypeError.
Proof.
  intros Hun Hfind. unfold update.
  change (getAgentById agentId (setCurrent (ById unknown) s))
    with (getAgentById agentId s).
  rewrite Hfind. cbn [setCurrent current]. now rewrite Hun.
Qed.

Lemma update_throws_after_unknown_setCurrent_witness :
  update "charlotte" (Examples.rename "Lotte")
    (setCurrent (ById "nonexistent-id") Examples.registry) = TypeError.
Proof.
  exact (@update_throws_after_unknown_setCurrent "nonexistent-id" "charlotte"
           (Examples.rename "Lotte") Examples.registry Examples.charlotte
           eq_refl eq_refl).
Defined.



Lemma update_lengths (agentId : string) (adjustments : PartialAgent)
  (s s' : State) :
  update agentId adjustments s = Done s' ->
  List.length (availablePresets s') = List.length (availablePresets s) /\
  List.length (availablePersonal s') = List.length (availablePersonal s).
Proof.
  unfold update. destruct (getAgentById agentId s) as [agent | ].
  - destruct (current s) as [c | ]; [ | discriminate ].
    intros [= <-]. cbn [availablePresets availablePersonal].
    unfold replaceById. now rewrite !length_map.
  - intros [= <-]. split; reflexivity.
Qed.

Lemma applyAgent_lengths (a : AgentAction) (s s' : State) :
  applyAgent s a = Some s' ->
  List.length (availablePresets s') = List.length (availablePresets s) /\
  List.length (availablePersonal s')
  = addAgentCalls [a] + List.length (availablePersonal s).
Proof.
  destruct a as [agent | agent | agentId adj]; cbn [applyAgent addAgentCalls].
  - intros [= <-]. cbn [addAgent availablePresets availablePersonal].
    rewrite length_app. cbn [List.length]. lia.
  - intros [= <-]. split; reflexivity.
  - destruct (update agentId adj s) as [s1 | ] eqn:E; [ | discriminate ].
    intros [= <-]. exact (@update_lengths _ _ _ _ E).
Qed.

(** X9: no operation of the registry deletes an agent.  After any run of
    [addAgent], [setCurrent] and [update] calls that does not throw, the
    preset list has the length it had, and the personal list has grown by
    exactly the number of [addAgent] calls. *)
Theorem registry_never_shrinks (acts : list AgentAction) (s s' : State) :
  runAgent acts s = Some s' ->
  List.length (availablePresets s') = List.length (availablePresets s) /\
  List.length (availablePersonal s')
  = List.length (availablePersonal s) + addAgentCalls acts.
Proof.
  revert s. induction acts as [ | a acts IH ]; intros s.
  - intros [= <-]. cbn [addAgentCalls]. split; [ reflexivity | lia ].
  - cbn [runAgent]. destruct (applyAgent s a) as [s1 | ] eqn:E; [ | discriminate ].
    intros Hrun. destruct (IH _ Hrun) as [H1 H2].
    destruct (applyAgent_lengths _ _ E) as [G1 G2].
    split; [ congruence | ].
    rewrite H2, G2. destruct a; cbn [addAgentCalls]; lia.
Qed.

Lemma registry_never_shrinks_witness :
  exists s',
    runAgent [AddAgent Examples.paulCopy;
              Update "paul" (Examples.rename "Pablo");
              SetCurrent (ById "charlotte")] Examples.registry = Some s' /\
    List.length (availablePresets s') = 2 /\
    List.length (availablePersonal s') = 1.
Proof.
  eexists. split; [ reflexivity | ].
  exact (@registry_never_shrinks
           [AddAgent Examples.paulCopy;
            Update "paul" (Examples.rename "Pablo");
            SetCurrent (ById "charlotte")] Examples.registry _ eq_refl).
Defined.

End AgentRegistryOperations.

(** ** The message log *)
Section MessageLog.
Import Stores StoreActions.

Lemma runUI_app (acts1 acts2 : list UIAction) (u : UI) :
  runUI (acts1 ++ acts2) u = runUI acts2 (runUI acts1 u).
Proof. unfold runUI. apply fold_left_app. Qed.

(** X10: the message log is append-only.  After any run of the setters of
    the UI store the log is the old log followed by the messages of the
    [addChatMessage] calls, in call order; no setter drops, reorders or
    rewrites a message. *)
Theorem chat_log_append_only (acts : list UIAction) (u : UI) :
  chatMessages (runUI acts u) = chatMessages u ++ added acts /\
  List.length (chatMessages (runUI acts u))
  = List.length (chatMessages u) + List.length (added acts) /\
  (forall n m, nth_error (chatMessages u) n = Some m ->
               nth_error (chatMessages (runUI acts u)) n = Some m).
Proof.
  assert (Hlog : forall acts u,
            chatMessages (runUI acts u) = chatMessages u ++ added acts).
  { clear. induction acts as [ | a acts IH ]; intros u.
    - cbn. now rewrite app_nil_r.
    - change (runUI (a :: acts) u) with (runUI acts (applyUI u a)).
      rewrite IH. destruct a; cbn [applyUI added]; try reflexivity.
      cbn [addChatMessage chatMessages]. now rewrite <- app_assoc. }
  split; [ apply Hlog | ]. split.
  - rewrite Hlog. apply length_app.
  - intros n m Hn. rewrite Hlog. rewrite nth_error_app1; [ exact Hn | ].
    apply nth_error_Some. congruence.
Qed.

(** Opening the panel, two messages and a mode switch. *)
Lemma chat_log_append_only_witness :
  chatMessages
    (runUI [SetShowChatAssistant true; AddChatMessage Examples.greeting;
            SetCodingMode true; AddChatMessage Examples.welcome]
       {| showUserConfig := true; showAgentEdit := false;
          showChatAssistant := false; chatMessages := [];
          isCodingMode := false |})
  = [Examples.greeting; Examples.welcome].
Proof.
  exact (proj1 (chat_log_append_only
                  [SetShowChatAssistant true; AddChatMessage Examples.greeting;
                   SetCodingMode true; AddChatMessage Examples.welcome]
                  {| showUserConfig := true; showAgentEdit := false;
                     showChatAssistant := false; chatMessages := [];
                     isCodingMode := false |})).
Defined.

End MessageLog.

(** ** More on the dispatcher *)
Section DispatcherOperations.
Import Stores Dispatch Handlers Settled.

Ltac run_dispatch :=
  cbv beta iota zeta delta
    [sendMessage cloudBranch localBranch bind ret get modify throw await
     tryCatchFinally Dispatch.addChatMessage setInput setAttachments
     setLoading preventDefault record consoleError userMessage failure
     withHistory onChange];
  cbn [w_user w_config w_ui input loading w_attachments defaultPrevented
       calls console attachments role text chatMessages isCodingMode
       Stores.addChatMessage].

(** A dispatch that passes the guard ends in [settled]. *)
Lemma sendMessage_settles (env : Env) (e : bool) (w : World) :
  rejected w = false ->
  sendMessage env e w = (inr tt, settled env e w).
Proof.
  intros Hpass. unfold settled, reply, outbound, notice. run_dispatch.
  rewrite rejected_preventDefault, Hpass.
  destruct (provider (w_config w)).
  - destruct (newGoogleGenAI env) as [err | ].
    + now rewrite app_nil_r.
    + destruct (generateContent env _) as [err | response];
        [ reflexivity | now rewrite app_nil_r ].
  - destruct (fetch env _ _) as [err | response]; [ reflexivity | ].
    destruct (json response) as [err | data]; [ reflexivity | ].
    destruct (Json.choiceContent data) as [found | ];
      [ now rewrite app_nil_r | reflexivity ].
Qed.

(** X11: a dispatch that passes the guard empties the input and the
    attachment buffer, leaves the user store, the configuration, the coding
    mode and the panel flags alone, and makes at most one call, of the
    active provider's kind: exactly one to the local endpoint, and one to
    the cloud unless the SDK's constructor throws. *)
Theorem dispatch_clears_buffers_one_call (env : Env) (e : bool) (w : World) :
  rejected w = false ->
  exists w',
    sendMessage env e w = (inr tt, w') /\
    input w' = "" /\
    w_attachments w' = [] /\
    w_user w' = w_user w /\
    w_config w' = w_config w /\
    isCodingMode (w_ui w') = isCodingMode (w_ui w) /\
    showChatAssistant (w_ui w') = showChatAssistant (w_ui w) /\
    showUserConfig (w_ui w') = showUserConfig (w_ui w) /\
    showAgentEdit (w_ui w') = showAgentEdit (w_ui w) /\
    match provider (w_config w) with
    | local => exists url init, calls w' = calls w ++ [LocalCall url init]
    | gemini =>
        match newGoogleGenAI env with
        | Some _ => calls w' = calls w
        | None => exists params, calls w' = calls w ++ [CloudCall params]
        end
    end.
Proof.
  intros Hpass. eexists. split; [ apply (@sendMessage_settles _ _ _ Hpass) | ].
  unfold settled, outbound.
  cbn [input w_attachments w_user w_config w_ui calls isCodingMode
       showChatAssistant showUserConfig showAgentEdit Stores.addChatMessage].
  repeat (split; [ reflexivity | ]).
  destruct (provider (w_config w)).
  - destruct (newGoogleGenAI env); [ apply app_nil_r | eexists; reflexivity ].
  - do 2 eexists. reflexivity.
Qed.

Lemma dispatch_clears_buffers_one_call_witness :
  exists w',
    sendMessage (Examples.mockedLocal Examples.hiData) true
      (Examples.world local "http://localhost:11434/v1" "hello"
         [Examples.notes]) = (inr tt, w') /\
    input w' = "" /\
    w_attachments w' = [] /\
    List.length (calls w') = 1.
Proof.
  destruct (@dispatch_clears_buffers_one_call
              (Examples.mockedLocal Examples.hiData) true
              (Examples.world local "http://localhost:11434/v1" "hello"
                 [Examples.notes]) eq_refl)
    as [w' [Hrun [Hin [Hatt [_ [_ [_ [_ [_ [_ [url [init Hcalls]]]]]]]]]]]].
  exists w'. split; [ exact Hrun | ]. split; [ exact Hin | ].
  split; [ exact Hatt | ]. rewrite Hcalls. reflexivity.
Defined.

(** X12: when the cloud call succeeds, the reply appended is a [model]
    message with the response's text, or ['Empty response'] when the text
    is undefined or empty, and with the grounding chunks of the first
    candidate; nothing goes to the console. *)
Theorem cloud_success_reply (env : Env) (e : bool) (w : World)
  (response : GenerateContentResponse) :
  provider (w_config w) = gemini ->
  rejected w = false ->
  newGoogleGenAI env = None ->
  generateContent env
    (cloudParams (buildParts (input w) (w_attachments w))
       (systemInstructionOf (isCodingMode (w_ui w)) (name (w_user w)))
       (isCodingMode (w_ui w)))
    = inr response ->
  exists w',
    sendMessage env e w = (inr tt, w') /\
    chatMessages (w_ui w')
      = chatMessages (w_ui w)
        ++ [userMessage env w;
            {| role := model;
               text := match r_text response with
                       | Some (String c r) => JStr (String c r)
                       | Some EmptyString => JStr "Empty response"
                       | None => JStr "Empty response"
                       end;
               timestamp := repliedAt env;
               attachments := None;
               groundingChunks :=
                 match candidates response with
                 | Some (first :: _) =>
                     match groundingMetadata first with
                     | Some metadata => gm_groundingChunks metadata
                     | None => None
                     end
                 | Some [] => None
                 | None => None
                 end |}] /\
    console w' = console w.
Proof.
  intros Hcloud Hpass Hctor Hgen. eexists.
  split; [ apply (@sendMessage_settles _ _ _ Hpass) | ].
  unfold settled, reply, failure. rewrite Hcloud, Hctor, Hgen.
  cbn [w_ui console chatMessages Stores.addChatMessage].
  rewrite <- app_assoc, app_nil_r. cbn [app]. split; [ | reflexivity ].
  unfold groundingChunksOf, Js.orElse, Js.truthy.
  destruct (r_text response) as [[ | c r] | ];
    destruct (candidates response) as [[ | first rest] | ]; reflexivity.
Qed.

Lemma cloud_success_reply_witness :
  exists w',
    sendMessage (Examples.cloudAnswers Examples.groundedEmpty) true
      (Examples.world gemini "http://localhost:11434/v1" "any news?" [])
      = (inr tt, w') /\
    nth_error (chatMessages (w_ui w')) 3
      = Some {| role := model; text := JStr "Empty response";
                timestamp := 2000%Z; attachments := None;
                groundingChunks :=
                  Some [ {| uri := Some "https://example.org";
                            title := None |} ] |}.
Proof.
  destruct (@cloud_success_reply (Examples.cloudAnswers Examples.groundedEmpty)
              true
              (Examples.world gemini "http://localhost:11434/v1" "any news?" [])
              Examples.groundedEmpty eq_refl eq_refl eq_refl eq_refl)
    as [w' [Hrun [Hlog _]]].
  exists w'. split; [ exact Hrun | ]. rewrite Hlog. reflexivity.
Defined.

(** X13: a truthy [content] of the local reply becomes the text of the
    [model] message as it is, also when it is not a string (a number, an
    object, an array); nothing goes to the console. *)
Theorem local_truthy_content_verbatim (env : Env) (e : bool) (w : World)
  (response : Response) (data v : value) :
  provider (w_config w) = local ->
  rejected w = false ->
  fetch env (completionsUrl (localEndpoint (w_config w)))
    (completionInit
       (completionBody (localModelId (w_config w))
          (systemInstructionOf (isCodingMode (w_ui w)) (name (w_user w)))
          (chatMessages (w_ui w)) (input w)))
    = inr response ->
  json response = inr data ->
  Json.choiceContent data = Some (Some v) ->
  Json.truthy v = true ->
  exists w',
    sendMessage env e w = (inr tt, w') /\
    chatMessages (w_ui w')
      = chatMessages (w_ui w)
        ++ [userMessage env w;
            {| role := model; text := v; timestamp := repliedAt env;
               attachments := None; groundingChunks := None |}] /\
    console w' = console w.
Proof.
  intros Hlocal Hpass Hfetch Hjson Hfound Htruthy. eexists.
  split; [ apply (@sendMessage_settles _ _ _ Hpass) | ].
  unfold settled, reply, failure. rewrite Hlocal, Hfetch, Hjson, Hfound.
  unfold Json.orPlaceholder. rewrite Htruthy.
  cbn [w_ui console chatMessages Stores.addChatMessage].
  rewrite <- app_assoc, app_nil_r. split; reflexivity.
Qed.

(** A server that puts a number where the text should be. *)
Lemma local_truthy_content_verbatim_witness :
  exists w',
    sendMessage
      (Examples.mockedLocal (Examples.completion (JNum 5%float))) false
      (Examples.world local "http://localhost:11434/v1" "2+3?" [])
      = (inr tt, w') /\
    nth_error (chatMessages (w_ui w')) 3
      = Some {| role := model; text := JNum 5%float; timestamp := 2000%Z;
                attachments := None; groundingChunks := None |}.
Proof.
  destruct (@local_truthy_content_verbatim
              (Examples.mockedLocal (Examples.completion (JNum 5%float))) false
              (Examples.world local "http://localhost:11434/v1" "2+3?" [])
              {| json := inr (Examples.completion (JNum 5%float)) |}
              (Examples.completion (JNum 5%float)) (JNum 5%float)
              eq_refl eq_refl eq_refl eq_refl eq_refl eq_refl)
    as [w' [Hrun [Hlog _]]].
  exists w'. split; [ exact Hrun | ]. rewrite Hlog. reflexivity.
Defined.

(** A body that is an object without [choices] has no content to read. *)
Lemma choiceContent_without_choices (props : list (string * value)) :
  Json.assoc "choices" props = None ->
  Json.choiceContent (JObj props) = Some None.
Proof.
  intros H. unfold Json.choiceContent, Json.prop. rewrite H. reflexivity.
Qed.

(** X14: when the local server answers with JSON that is not [null] but
    has no [choices[0].message.content] to read (no [choices], an empty
    [choices], a choice without [message], ...), the dispatcher does not
    treat it as a failure: the reply is the placeholder
    ['Local engine error.'] and nothing goes to the console, so an error
    body such as [{error: "..."}] is not shown. *)
Theorem local_missing_content_placeholder (env : Env) (e : bool) (w : World)
  (response : Response) (data : value) :
  provider (w_config w) = local ->
  rejected w = false ->
  fetch env (completionsUrl (localEndpoint (w_config w)))
    (completionInit
       (completionBody (localModelId (w_config w))
          (systemInstructionOf (isCodingMode (w_ui w)) (name (w_user w)))
          (chatMessages (w_ui w)) (input w)))
    = inr response ->
  json response = inr data ->
  Json.choiceContent data = Some None ->
  exists w',
    sendMessage env e w = (inr tt, w') /\
    chatMessages (w_ui w')
      = chatMessages (w_ui w)
        ++ [userMessage env w;
            {| role := model; text := JStr "Local engine error.";
               timestamp := repliedAt env;
               attachments := None; groundingChunks := None |}] /\
    console w' = console w.
Proof.
  intros Hlocal Hpass Hfetch Hjson Hfound. eexists.
  split; [ apply (@sendMessage_settles _ _ _ Hpass) | ].
  unfold settled, reply, failure. rewrite Hlocal, Hfetch, Hjson, Hfound.
  cbn [w_ui console chatMessages Stores.addChatMessage Json.orPlaceholder].
  rewrite <- app_assoc, app_nil_r. split; reflexivity.
Qed.

Lemma local_missing_content_placeholder_witness :
  Json.choiceContent Examples.errorPayload = Some None /\
  exists w',
    sendMessage (Examples.mockedLocal Examples.errorPayload) false
      (Examples.world local "http://localhost:11434/v1" "hello?" [])
      = (inr tt, w') /\
    nth_error (chatMessages (w_ui w')) 3
      = Some {| role := model; text := JStr "Local engine error.";
                timestamp := 2000%Z;
                attachments := None; groundingChunks := None |} /\
    console w' = [].
Proof.
  split; [ apply choiceContent_without_choices; reflexivity | ].
  destruct (@local_missing_content_placeholder
              (Examples.mockedLocal Examples.errorPayload) false
              (Examples.world local "http://localhost:11434/v1" "hello?" [])
              {| json := inr Examples.errorPayload |} Examples.errorPayload
              eq_refl eq_refl eq_refl eq_refl eq_refl)
    as [w' [Hrun [Hlog Hcon]]].
  exists w'. split; [ exact Hrun | ]. split; [ | exact Hcon ].
  rewrite Hlog. reflexivity.
Defined.

(** X15: a local reply whose JSON body is [null] is a failure, unlike a
    body without [choices]: reading [choices] of [null] throws, the
    [TypeError] is logged, and the reply is the notice about the local
    server and CORS. *)
Theorem local_null_body_is_failure (env : Env) (e : bool) (w : World)
  (response : Response) :
  provider (w_config w) = local ->
  rejected w = false ->
  fetch env (completionsUrl (localEndpoint (w_config w)))
    (completionInit
       (completionBody (localModelId (w_config w))
          (systemInstructionOf (isCodingMode (w_ui w)) (name (w_user w)))
          (chatMessages (w_ui w)) (input w)))
    = inr response ->
  json response = inr JNull ->
  exists w',
    sendMessage env e w = (inr tt, w') /\
    chatMessages (w_ui w')
      = chatMessages (w_ui w)
        ++ [userMessage env w;
            {| role := model;
               text := JStr "Network Error: Verify that your local server is running and CORS is enabled.";
               timestamp := repliedAt env;
               attachments := None; groundingChunks := None |}] /\
    console w' = console w ++ [TypeError] /\
    loading w' = false.
Proof.
  intros Hlocal Hpass Hfetch Hjson. eexists.
  split; [ apply (@sendMessage_settles _ _ _ Hpass) | ].
  unfold settled, reply, notice, failure. rewrite Hlocal, Hfetch, Hjson.
  cbn [w_ui console chatMessages loading Stores.addChatMessage
       Json.choiceContent].
  rewrite <- app_assoc. repeat split.
Qed.

Lemma local_null_body_is_failure_witness :
  exists w',
    sendMessage (Examples.mockedLocal JNull) false
      (Examples.world local "http://localhost:11434/v1" "hello?" [])
      = (inr tt, w') /\
    console w' = [TypeError] /\
    loading w' = false.
Proof.
  destruct (@local_null_body_is_failure (Examples.mockedLocal JNull) false
              (Examples.world local "http://localhost:11434/v1" "hello?" [])
              {| json := inr JNull |} eq_refl eq_refl eq_refl eq_refl)
    as [w' [Hrun [_ [Hcon Hload]]]].
  exists w'. split; [ exact Hrun | ]. split; [ exact Hcon | exact Hload ].
Defined.

Lemma append_empty_r (s : string) : (s ++ "")%string = s.
Proof. induction s as [ | c r IH ]; simpl; [ reflexivity | now rewrite IH ]. Qed.

Lemma append_assoc (s t u : string) :
  ((s ++ t) ++ u)%string = (s ++ (t ++ u))%string.
Proof. induction s as [ | c r IH ]; simpl; [ reflexivity | now rewrite IH ]. Qed.

Lemma fold_pushAttachment (atts : list Attachment) (t : string)
  (ps : list Part) :
  fold_left pushAttachment atts (TextPart t :: ps)
  = TextPart (t ++ Parts.mentions atts) :: ps ++ Parts.inlines atts.
Proof.
  revert t ps. induction atts as [ | att atts IH ]; intros t ps.
  - cbn. now rewrite append_empty_r, app_nil_r.
  - cbn [fold_left Parts.mentions Parts.inlines].
    unfold pushAttachment at 2. unfold Parts.isImage.
    destruct (Js.startsWith "image/" (att_type att)).
    + change ((TextPart t :: ps) ++ [InlineData (att_type att) (att_data att)])
        with (TextPart t :: (ps ++ [InlineData (att_type att) (att_data att)])).
      rewrite IH, <- app_assoc. reflexivity.
    + cbn [appendToFirstText]. rewrite IH, append_assoc. reflexivity.
Qed.

(** X16: the parts of a cloud request, for any attachments: one text
    part, the typed text followed by one line [[Attached File: name]] for
    each attachment that is not an image, in order, and then one inline
    part for each image attachment, in order; so there is one part more
    than there are images, and the data of the other files is in no
    part. *)
Theorem buildParts_closed_form (typed : string) (atts : list Attachment) :
  buildParts typed atts
    = TextPart (typed ++ Parts.mentions atts) :: Parts.inlines atts /\
  List.length (buildParts typed atts)
    = S (List.length (filter Parts.isImage atts)) /\
  (forall mimeType data,
     In (InlineData mimeType data) (buildParts typed atts) ->
     exists att, In att atts /\ Parts.isImage att = true /\
                 att_type att = mimeType /\ att_data att = data).
Proof.
  assert (Hform : buildParts typed atts
            = TextPart (typed ++ Parts.mentions atts) :: Parts.inlines atts)
    by (unfold buildParts; now rewrite fold_pushAttachment).
  split; [ exact Hform | ]. rewrite Hform. clear Hform. split.
  - cbn [List.length]. f_equal.
    induction atts as [ | att atts IH ]; [ reflexivity | ].
    cbn [Parts.inlines filter].
    destruct (Parts.isImage att); cbn [List.length]; now rewrite IH.
  - intros mimeType data [Hin | Hin]; [ discriminate | ].
    induction atts as [ | att atts IH ]; [ destruct Hin | ].
    cbn [Parts.inlines] in Hin. destruct (Parts.isImage att) eqn:Himg.
    + destruct Hin as [[= <- <-] | Hin].
      * exists att. repeat split; [ now left | exact Himg ].
      * destruct (IH Hin) as [a [Ha Hrest]]. exists a.
        split; [ now right | exact Hrest ].
    + destruct (IH Hin) as [a [Ha Hrest]]. exists a.
      split; [ now right | exact Hrest ].
Qed.

Lemma buildParts_closed_form_witness :
  buildParts "compare"
    [Examples.notes; Examples.photo; Examples.notes]
  = [TextPart ("compare" ++ LF ++ "[Attached File: notes.pdf]"
               ++ LF ++ "[Attached File: notes.pdf]");
     InlineData "image/png" "iVBORw0KGgo="].
Proof.
  exact (proj1 (buildParts_closed_form "compare"
                  [Examples.notes; Examples.photo; Examples.notes])).
Defined.

(** X17: in local mode the attachments are not sent: a dispatch makes the
    same call whatever is attached (as long as the guard lets it pass), and
    the [user] message of the log still carries the attachments. *)
Theorem local_request_ignores_attachments (env : Env) (e : bool) (w : World)
  (atts : list Attachment) :
  provider (w_config w) = local ->
  rejected w = false ->
  rejected (withAttachments atts w) = false ->
  exists w1 w2 url init,
    sendMessage env e w = (inr tt, w1) /\
    sendMessage env e (withAttachments atts w) = (inr tt, w2) /\
    calls w1 = calls w ++ [LocalCall url init] /\
    calls w2 = calls w ++ [LocalCall url init] /\
    nth_error (chatMessages (w_ui w2)) (List.length (chatMessages (w_ui w)))
      = Some {| role := user; text := JStr (input w);
                timestamp := sentAt env; attachments := Some atts;
                groundingChunks := None |}.
Proof.
  intros Hlocal Hpass Hpass'. do 4 eexists.
  rewrite (@sendMessage_settles _ _ _ Hpass), (@sendMessage_settles _ _ _ Hpass').
  split; [ reflexivity | ]. split; [ reflexivity | ].
  unfold settled, outbound, withAttachments, userMessage.
  cbn [calls w_config w_ui w_user input w_attachments chatMessages
       Stores.addChatMessage].
  rewrite Hlocal. split; [ reflexivity | ]. split; [ reflexivity | ].
  rewrite <- app_assoc, nth_error_app2 by lia.
  now rewrite Nat.sub_diag.
Qed.

(** With nothing typed, a PDF alone passes the guard; the local server is
    asked the same as for a photo alone. *)
Lemma local_request_ignores_attachments_witness :
  exists w1 w2 url init,
    sendMessage (Examples.mockedLocal Examples.hiData) false
      (Examples.world local "http://localhost:11434/v1" "" [Examples.notes])
      = (inr tt, w1) /\
    sendMessage (Examples.mockedLocal Examples.hiData) false
      (Examples.world local "http://localhost:11434/v1" "" [Examples.photo])
      = (inr tt, w2) /\
    calls w1 = [LocalCall url init] /\
    calls w2 = [LocalCall url init].
Proof.
  destruct (@local_request_ignores_attachments
              (Examples.mockedLocal Examples.hiData) false
              (Examples.world local "http://localhost:11434/v1" ""
                 [Examples.notes])
              [Examples.photo] eq_refl eq_refl eq_refl)
    as [w1 [w2 [url [init [Hrun1 [Hrun2 [Hc1 [Hc2 _]]]]]]]].
  exists w1, w2, url, init.
  split; [ exact Hrun1 | ]. split; [ exact Hrun2 | ].
  split; [ exact Hc1 | exact Hc2 ].
Defined.

(** X18: two local dispatches in a row.  After a first dispatch has ended,
    typing a text that is not blank and sending again passes the guard, and
    the second request replays the whole first exchange: the old log, the
    first user text, the first reply (as [assistant], the error notice
    included when the first dispatch failed), then the new text. *)
Theorem local_second_dispatch_replays_first (env1 env2 : Env) (e1 e2 : bool)
  (w : World) (typed : string) :
  provider (w_config w) = local ->
  rejected w = false ->
  Js.allWhiteSpace typed = false ->
  exists w1 reply1 w2 url init,
    sendMessage env1 e1 w = (inr tt, w1) /\
    chatMessages (w_ui w1)
      = chatMessages (w_ui w) ++ [userMessage env1 w; reply1] /\
    role reply1 = model /\
    bind (onChange typed) (fun _ => sendMessage env2 e2) w1 = (inr tt, w2) /\
    calls w2 = calls w1 ++ [LocalCall url init] /\
    messages (body init)
      = {| m_role := "system";
           content := JStr (systemInstructionOf (isCodingMode (w_ui w))
                              (name (w_user w))) |}
        :: map replay (chatMessages (w_ui w))
        ++ [ {| m_role := "user"; content := JStr (input w) |};
             {| m_role := "assistant"; content := text reply1 |};
             {| m_role := "user"; content := JStr typed |} ].
Proof.
  intros Hlocal Hpass Htyped.
  assert (Hmodel : role (Settled.reply env1 w) = model).
  { unfold Settled.reply, notice.
    destruct (provider (w_config w));
      repeat match goal with
             | |- role (match ?x with _ => _ end) = _ => destruct x
             end; reflexivity. }
  set (w1 := settled env1 e1 w).
  set (typedIn :=
         {| w_user := w_user w1; w_config := w_config w1; w_ui := w_ui w1;
            input := typed; loading := loading w1;
            w_attachments := w_attachments w1;
            defaultPrevented := defaultPrevented w1;
            calls := calls w1; console := console w1 |}).
  assert (Hpass2 : rejected typedIn = false).
  { apply not_true_is_false. intros H. apply rejected_spec in H.
    cbn [typedIn w1 settled input loading w_attachments] in H.
    destruct H as [[H _] | H]; congruence. }
  exists w1, (Settled.reply env1 w). do 3 eexists.
  split; [ apply (@sendMessage_settles _ _ _ Hpass) | ].
  split.
  { cbn [w1 settled w_ui chatMessages Stores.addChatMessage].
    now rewrite <- app_assoc. }
  split; [ exact Hmodel | ].
  split.
  { unfold bind, onChange, setInput, modify. fold typedIn.
    apply (@sendMessage_settles _ _ _ Hpass2). }
  unfold settled at 1. unfold outbound.
  cbn [calls typedIn w1 settled w_config w_ui w_user input chatMessages
       isCodingMode Stores.addChatMessage].
  rewrite Hlocal. split; [ reflexivity | ].
  cbn [completionInit body completionBody messages]. f_equal.
  rewrite !map_app, <- !app_assoc. cbn [map app].
  unfold replay at 2 3. rewrite Hmodel. reflexivity.
Qed.

Lemma local_second_dispatch_replays_first_witness :
  exists w1 reply1 w2 url init,
    sendMessage (Examples.mockedLocal Examples.hiData) true
      (Examples.world local "http://localhost:11434/v1" "say hi" [])
      = (inr tt, w1) /\
    bind (onChange "again") (fun _ => sendMessage Examples.cloudDown true) w1
      = (inr tt, w2) /\
    calls w2 = calls w1 ++ [LocalCall url init] /\
    List.length (messages (body init)) = 6 /\
    nth_error (messages (body init)) 4
      = Some {| m_role := "assistant"; content := text reply1 |}.
Proof.
  destruct (@local_second_dispatch_replays_first
              (Examples.mockedLocal Examples.hiData) Examples.cloudDown
              true true
              (Examples.world local "http://localhost:11434/v1" "say hi" [])
              "again" eq_refl eq_refl eq_refl)
    as [w1 [reply1 [w2 [url [init [Hrun1 [_ [_ [Hrun2 [Hcalls Hmsgs]]]]]]]]]].
  exists w1, reply1, w2, url, init.
  split; [ exact Hrun1 | ]. split; [ exact Hrun2 | ].
  split; [ exact Hcalls | ]. rewrite Hmsgs. split; reflexivity.
Defined.

Lemma stripTrailingSlash_fixed (s : string) :
  (forall t, s <> (t ++ "/")%string) -> Js.stripTrailingSlash s = s.
Proof.
  induction s as [ | c r IH ]; intros H; [ reflexivity | ].
  destruct r as [ | c' r' ].
  - cbn. destruct (Ascii.eqb_spec c "/") as [-> | _]; [ | reflexivity ].
    exfalso. apply (H EmptyString). reflexivity.
  - change (Js.stripTrailingSlash (String c (String c' r')))
      with (String c (Js.stripTrailingSlash (String c' r'))).
    rewrite IH; [ reflexivity | ].
    intros t Ht. apply (H (String c t)). cbn. now rewrite Ht.
Qed.

(** X19: the completions URL.  an endpoint written with one trailing
    slash gives the same URL as the endpoint written without it; only one
    slash is removed, so an endpoint ending in two slashes keeps one before
    `/chat/completions`; and an empty endpoint gives the bare path. *)
Theorem completionsUrl_trailing_slash (s : string) :
  (forall t, s <> (t ++ "/")%string) ->
  completionsUrl s = (s ++ "/chat/completions")%string /\
  completionsUrl (s ++ "/") = completionsUrl s /\
  completionsUrl ((s ++ "/") ++ "/") = ((s ++ "/") ++ "/chat/completions")%string /\
  completionsUrl "" = "/chat/completions".
Proof.
  intros H. unfold completionsUrl.
  rewrite !stripTrailingSlash_slash, (stripTrailingSlash_fixed H).
  repeat split.
Qed.

Lemma completionsUrl_trailing_slash_witness :
  completionsUrl "http://localhost:8000/v1"
    = "http://localhost:8000/v1/chat/completions" /\
  completionsUrl "http://localhost:8000/v1/"
    = "http://localhost:8000/v1/chat/completions" /\
  completionsUrl "http://localhost:8000/v1//"
    = "http://localhost:8000/v1//chat/completions".
Proof.
  assert (H : forall t, "http://localhost:8000/v1" <> (t ++ "/")%string).
  { intros t Ht.
    assert (Hs : Js.stripTrailingSlash "http://localhost:8000/v1" = t)
      by (rewrite Ht; apply stripTrailingSlash_slash).
    subst t. discriminate. }
  destruct (@completionsUrl_trailing_slash "http://localhost:8000/v1" H)
    as [H1 [H2 [H3 _]]].
  split; [ exact H1 | ]. split; [ exact (eq_trans H2 H1) | exact H3 ].
Defined.

End DispatcherOperations.

(** ** The cloud-only dispatcher *)
Section CloudOnlyDispatcher.
Import Stores Dispatch.

Ltac run_cloud_only :=
  cbv beta iota zeta delta
    [CloudOnly.sendMessage sendMessage cloudBranch localBranch bind ret get
     modify throw await tryCatchFinally Dispatch.addChatMessage setInput
     setAttachments setLoading preventDefault record consoleError userMessage];
  cbn [w_user w_config w_ui input loading w_attachments defaultPrevented
       calls console attachments role text chatMessages isCodingMode
       groundingChunks Stores.addChatMessage].

Ltac finish_cloud_only :=
  cbn [w_user w_config w_ui input loading w_attachments defaultPrevented
       calls console attachments role text chatMessages isCodingMode
       groundingChunks Stores.addChatMessage];
  repeat rewrite <- app_assoc; repeat rewrite app_nil_r; cbn [app];
  repeat split; try reflexivity.

(** X20: the cloud-only dispatcher, for a dispatch that passes the guard
    and whatever the configuration store says: it returns normally with
    [loading] false and both buffers empty, it has appended the user's
    message and one [model] reply, and it has called the cloud at most once
    and nothing else; on a failure (constructor or call) the reply is the
    fixed connection notice and the error is logged, on success it is the
    response's text, or the fallback sentence when that is empty, with the
    first candidate's grounding chunks. *)
Theorem cloudOnly_releases_and_reports (env : Env) (e : bool) (w : World) :
  rejected w = false ->
  let params :=
    cloudParams (buildParts (input w) (w_attachments w))
      (CloudOnly.systemInstructionOf (isCodingMode (w_ui w)) (name (w_user w)))
      (isCodingMode (w_ui w)) in
  exists w' reply,
    CloudOnly.sendMessage env e w = (inr tt, w') /\
    loading w' = false /\
    input w' = "" /\
    w_attachments w' = [] /\
    chatMessages (w_ui w')
      = chatMessages (w_ui w) ++ [userMessage env w; reply] /\
    role reply = model /\
    match newGoogleGenAI env with
    | Some err =>
        calls w' = calls w /\
        text reply = JStr CloudOnly.connectErrorText /\
        console w' = console w ++ [err]
    | None =>
        calls w' = calls w ++ [CloudCall params] /\
        match generateContent env params with
        | inl err =>
            text reply = JStr CloudOnly.connectErrorText /\
            console w' = console w ++ [err]
        | inr response =>
            text reply
              = JStr (Js.orElse (r_text response)
                        "I encountered an error processing your request.") /\
            groundingChunks reply = groundingChunksOf response /\
            console w' = console w
        end
    end.
Proof.
  intros Hpass params. subst params. run_cloud_only.
  rewrite rejected_preventDefault, Hpass.
  destruct (newGoogleGenAI env) as [err | ].
  - do 2 eexists. split; [ reflexivity | ]. finish_cloud_only.
  - destruct (generateContent env _) as [err | response];
      do 2 eexists; (split; [ reflexivity | ]); finish_cloud_only.
Qed.

Lemma cloudOnly_releases_and_reports_witness :
  exists w' reply,
    CloudOnly.sendMessage Examples.cloudDown true
      (Examples.world local "http://localhost:11434/v1" "hello" [])
      = (inr tt, w') /\
    loading w' = false /\
    nth_error (chatMessages (w_ui w')) 3 = Some reply /\
    text reply
      = JStr "Error: Failed to connect to Gemini Pro. Please check your network or API key.".
Proof.
  destruct (@cloudOnly_releases_and_reports Examples.cloudDown true
              (Examples.world local "http://localhost:11434/v1" "hello" [])
              eq_refl)
    as [w' [reply [Hrun [Hload [_ [_ [Hlog [_ [_ [Htext _]]]]]]]]]].
  exists w', reply. split; [ exact Hrun | ]. split; [ exact Hload | ].
  split; [ rewrite Hlog; reflexivity | exact Htext ].
Defined.

(** X21: the hybrid dispatcher in cloud mode against the cloud-only one,
    from the same world and against the same environment.  Both reject the
    same worlds, and do the same then.  When the guard lets them pass they
    make calls that carry the same model, contents and tools (only the
    system instruction differs), append the same user message, and end with
    the same buffers and flag. *)
Theorem hybrid_cloud_agrees_with_cloudOnly (env : Env) (e : bool) (w : World) :
  (rejected w = true ->
   CloudOnly.sendMessage env e w = sendMessage env e w) /\
  (rejected w = false ->
   provider (w_config w) = gemini ->
   exists w1 w2 cs1 cs2 reply1 reply2,
     sendMessage env e w = (inr tt, w1) /\
     CloudOnly.sendMessage env e w = (inr tt, w2) /\
     calls w1 = calls w ++ cs1 /\
     calls w2 = calls w ++ cs2 /\
     map Parts.payload cs1 = map Parts.payload cs2 /\
     (forall c, In c cs1 -> Parts.payload c <> None) /\
     chatMessages (w_ui w1)
       = chatMessages (w_ui w) ++ [userMessage env w; reply1] /\
     chatMessages (w_ui w2)
       = chatMessages (w_ui w) ++ [userMessage env w; reply2] /\
     input w1 = input w2 /\
     w_attachments w1 = w_attachments w2 /\
     loading w1 = loading w2).
Proof.
  split.
  - intros Hrej. run_cloud_only. now rewrite rejected_preventDefault, Hrej.
  - intros Hpass Hcloud. run_cloud_only.
    rewrite rejected_preventDefault, Hpass, Hcloud.
    destruct (newGoogleGenAI env) as [err | ].
    + do 2 eexists. exists [], []. do 2 eexists.
      split; [ reflexivity | ]. split; [ reflexivity | ].
      finish_cloud_only. intros c [].
    + set (p1 := cloudParams _ (systemInstructionOf _ _) _).
      set (p2 := cloudParams _ (CloudOnly.systemInstructionOf _ _) _).
      destruct (generateContent env p1) as [err1 | response1];
        destruct (generateContent env p2) as [err2 | response2];
        do 2 eexists; exists [CloudCall p1], [CloudCall p2]; do 2 eexists;
        (split; [ reflexivity | ]); (split; [ reflexivity | ]);
        finish_cloud_only; intros c [<- | []]; discriminate.
Qed.

Lemma hybrid_cloud_agrees_with_cloudOnly_witness :
  exists w1 w2 cs1 cs2,
    sendMessage Examples.cloudDown true
      (Examples.world gemini "http://localhost:11434/v1" "look"
         [Examples.photo]) = (inr tt, w1) /\
    CloudOnly.sendMessage Examples.cloudDown true
      (Examples.world gemini "http://localhost:11434/v1" "look"
         [Examples.photo]) = (inr tt, w2) /\
    calls w1 = cs1 /\
    calls w2 = cs2 /\
    map Parts.payload cs1 = map Parts.payload cs2.
Proof.
  destruct (proj2 (@hybrid_cloud_agrees_with_cloudOnly Examples.cloudDown true
                     (Examples.world gemini "http://localhost:11434/v1" "look"
                        [Examples.photo])) eq_refl eq_refl)
    as [w1 [w2 [cs1 [cs2 [r1 [r2 [Hrun1 [Hrun2 [Hc1 [Hc2 [Hsame _]]]]]]]]]]].
  exists w1, w2, cs1, cs2.
  split; [ exact Hrun1 | ]. split; [ exact Hrun2 | ].
  split; [ exact Hc1 | ]. split; [ exact Hc2 | exact Hsame ].
Defined.

End CloudOnlyDispatcher.

(** ** The attachment buffer *)
Section AttachmentBuffer.
Import Stores Attachments.

Lemma split_without_separator (sep : ascii) (s : string) :
  occurs sep s = false -> split sep s = [s].
Proof.
  induction s as [ | c r IH ]; [ reflexivity | ].
  cbn [occurs split]. intros H. apply orb_false_iff in H.
  destruct H as [Hc Hr]. rewrite Hc, (IH Hr). reflexivity.
Qed.

Lemma split_at_first_separator (sep : ascii) (head rest : string) :
  occurs sep head = false ->
  split sep (head ++ String sep rest) = head :: split sep rest.
Proof.
  induction head as [ | c r IH ].
  - intros _. cbn [append split]. now rewrite Ascii.eqb_refl.
  - cbn [occurs]. intros H. apply orb_false_iff in H.
    destruct H as [Hc Hr]. cbn [append split]. rewrite Hc, (IH Hr).
    reflexivity.
Qed.

(** X22: what the upload handler keeps of a data URL.  For a result
    [head,data] with no comma in [head] nor in [data] (as
    [data:image/png;base64,....] is), [split(',')[1]] is exactly [data];
    anything after a further comma is dropped; and a result without a
    comma gives [undefined]. *)
Theorem base64Of_data_url (head data rest : string) :
  occurs "," head = false ->
  occurs "," data = false ->
  base64Of (head ++ "," ++ data) = Some data /\
  base64Of (head ++ "," ++ data ++ "," ++ rest) = Some data /\
  base64Of head = None.
Proof.
  intros Hhead Hdata. unfold base64Of.
  change ("," ++ data)%string with (String "," data).
  change ("," ++ data ++ "," ++ rest)%string
    with (String "," (data ++ String "," rest)).
  rewrite !split_at_first_separator by assumption.
  rewrite (split_without_separator _ _ Hhead).
  rewrite (split_without_separator _ _ Hdata).
  repeat split.
Qed.

Lemma base64Of_data_url_witness :
  base64Of "data:image/png;base64,iVBORw0KGgo=" = Some "iVBORw0KGgo=" /\
  base64Of "data:" = None.
Proof.
  destruct (@base64Of_data_url "data:image/png;base64" "iVBORw0KGgo=" ""
              eq_refl eq_refl) as [H1 _].
  destruct (@base64Of_data_url "data:" "" "" eq_refl eq_refl) as [_ [_ H3]].
  split; [ exact H1 | exact H3 ].
Defined.

Lemma filterOutIndex_past (i idx : nat) (prev : list Attachment) :
  i < idx -> filterOutIndex i idx prev = prev.
Proof.
  revert idx. induction prev as [ | att rest IH ]; intros idx H;
    [ reflexivity | ].
  cbn [filterOutIndex].
  destruct (Nat.eqb_spec idx i) as [-> | _]; [ lia | ].
  cbn [negb]. rewrite IH by lia. reflexivity.
Qed.

Lemma filterOutIndex_closed (i idx : nat) (prev : list Attachment) :
  idx <= i ->
  filterOutIndex i idx prev
  = firstn (i - idx) prev ++ skipn (S (i - idx)) prev.
Proof.
  revert idx. induction prev as [ | att rest IH ]; intros idx H.
  - now rewrite firstn_nil, skipn_nil.
  - cbn [filterOutIndex]. destruct (Nat.eqb_spec idx i) as [-> | Hne].
    + cbn [negb]. rewrite Nat.sub_diag. cbn [firstn skipn app].
      apply filterOutIndex_past. lia.
    + cbn [negb]. rewrite IH by lia.
      replace (i - idx) with (S (i - S idx)) by lia. reflexivity.
Qed.

Lemma removeChip_firstn_skipn (i : nat) (prev : list Attachment) :
  removeChip i prev = firstn i prev ++ skipn (S i) prev.
Proof.
  unfold removeChip. rewrite filterOutIndex_closed by lia.
  now rewrite Nat.sub_0_r.
Qed.

(** X23: the close button of chip [i] removes exactly the attachment at
    index [i]: the buffer becomes what was before it followed by what was
    after it; an index past the end removes nothing; within bounds the
    buffer loses one attachment, the ones before keep their index and the
    ones after move down by one. *)
Theorem removeChip_closed_form (i : nat) (prev : list Attachment) :
  removeChip i prev = firstn i prev ++ skipn (S i) prev /\
  (List.length prev <= i -> removeChip i prev = prev) /\
  (i < List.length prev ->
   S (List.length (removeChip i prev)) = List.length prev) /\
  (forall n, n < i -> nth_error (removeChip i prev) n = nth_error prev n) /\
  (forall n, i <= n -> nth_error (removeChip i prev) n = nth_error prev (S n)).
Proof.
  split; [ apply removeChip_firstn_skipn | ].
  rewrite removeChip_firstn_skipn. repeat split.
  - intros H. rewrite firstn_all2, skipn_all2 by lia. apply app_nil_r.
  - intros H. rewrite length_app, length_firstn, length_skipn. lia.
  - intros n H. destruct (Nat.lt_ge_cases i (List.length prev)) as [Hi | Hi].
    + rewrite nth_error_app1 by (rewrite length_firstn; lia).
      rewrite nth_error_firstn.
      destruct (Nat.ltb_spec n i); [ reflexivity | lia ].
    + rewrite firstn_all2, skipn_all2 by lia. now rewrite app_nil_r.
  - intros n H. destruct (Nat.lt_ge_cases i (List.length prev)) as [Hi | Hi].
    + rewrite nth_error_app2 by (rewrite length_firstn; lia).
      rewrite length_firstn, nth_error_skipn.
      f_equal. lia.
    + rewrite firstn_all2, skipn_all2 by lia. rewrite app_nil_r.
      transitivity (@None Attachment);
        [ apply nth_error_None | symmetry; apply nth_error_None ]; lia.
Qed.

Lemma removeChip_closed_form_witness :
  removeChip 5 [Examples.photo; Examples.notes]
    = [Examples.photo; Examples.notes] /\
  nth_error (removeChip 0 [Examples.photo; Examples.notes]) 0
    = Some Examples.notes.
Proof.
  destruct (removeChip_closed_form 5 [Examples.photo; Examples.notes])
    as [_ [Hout _]].
  destruct (removeChip_closed_form 0 [Examples.photo; Examples.notes])
    as [_ [_ [_ [_ Hafter]]]].
  split.
  - apply Hout. cbn. lia.
  - rewrite (Hafter 0) by lia. reflexivity.
Defined.

(** X24: a file that finishes loading and a chip that is closed.  Closing
    the chip of the attachment just appended gives back the buffer as it
    was; and closing an earlier chip gives the same buffer whether the file
    finished loading before or after the click. *)
Theorem append_then_remove (att : Attachment) (prev : list Attachment) :
  removeChip (List.length prev) (appendAttachment att prev) = prev /\
  (forall i, i < List.length prev ->
     removeChip i (appendAttachment att prev)
     = appendAttachment att (removeChip i prev)).
Proof.
  unfold appendAttachment. split.
  - rewrite removeChip_firstn_skipn.
    rewrite firstn_app, Nat.sub_diag, firstn_all, firstn_O, app_nil_r.
    rewrite skipn_all2 by (rewrite length_app; cbn; lia).
    apply app_nil_r.
  - intros i Hi.
    rewrite !removeChip_firstn_skipn.
    rewrite firstn_app, skipn_app.
    replace (i - List.length prev) with 0 by lia.
    replace (S i - List.length prev) with 0 by lia.
    cbn [firstn skipn]. now rewrite app_nil_r, <- app_assoc.
Qed.

Lemma append_then_remove_witness :
  0 < List.length [Examples.photo] /\
  removeChip 0 (appendAttachment Examples.notes [Examples.photo])
    = appendAttachment Examples.notes (removeChip 0 [Examples.photo]) /\
  removeChip 1 (appendAttachment Examples.notes [Examples.photo])
    = [Examples.photo].
Proof.
  destruct (append_then_remove Examples.notes [Examples.photo]) as [Hlast Hearlier].
  split; [ cbn; lia | ]. split.
  - apply Hearlier. cbn. lia.
  - exact Hlast.
Defined.

End AttachmentBuffer.
